(** * The visualization output plugin of MPD: connection lifecycle

    A shallow embedding of
      - [VisualizationClient]  (VisualizationClient.hxx / .cxx),
      - [VisualizationServer]  (VisualizationServer.hxx / .cxx),
      - [Visualization]        (Visualization.hxx / .cxx),
      - [VisualizationOutput]  (VisualizationOutputPlugin.cxx),
    followed by the properties of the accept path, the reaper, the echo
    protocol, the liveness flag and the teardown order.

    Objects are records, methods are functions from the object before the
    call to the object after it.  Whatever the kernel or MPD's event loop
    decides (the answer to a [send], the flags of a readiness event, the
    clock) is an argument of the method that consumes it.  Calls to the
    logger leave no trace in any object and are left out, except for the
    periodic report of [Visualization::Play], which is an output of its
    model. *)

From Stdlib Require Import NArith ZArith List Bool Lia Permutation.
From Stdlib Require Import Init.Byte.
Import ListNotations.

Set Implicit Arguments.

(** ** Socket layer *)

Module Socket.

(** The bits of a readiness event ([SocketEvent::READ] and so on).  Their
    values belong to the event backend (epoll, poll, ...) and are not fixed
    by the plugin, which only ever tests [flags & BIT]. *)
Class SocketEventFlags : Type := {
  READ : N;
  WRITE : N;
  HANGUP : N
}.

(** A socket error code, seen through the two predicates of
    net/SocketError.hxx that the plugin asks about it. *)
Record socket_error_t : Type := {
  IsSocketErrorSendWouldBlock : bool;
  IsSocketErrorClosed : bool
}.

(** The error of an operation on a descriptor that is not open: neither
    "would block" nor "connection closed". *)
Definition EBADF : socket_error_t :=
  {| IsSocketErrorSendWouldBlock := false; IsSocketErrorClosed := false |}.

(** The kernel's answer to one [write] on a socket: the [ssize_t] it
    returns and the error code [GetSocketError()] reads afterwards. *)
Record SendAnswer : Type := {
  nbytes : Z;
  GetSocketError : socket_error_t
}.

(** The flag values of the epoll backend, used for concrete runs. *)
Definition epoll : SocketEventFlags :=
  {| READ := 1; WRITE := 4; HANGUP := 16 |}.

End Socket.

(** ** VisualizationClient *)

Module Client.
Import Socket.

Inductive InputResult : Type := MORE | PAUSE | AGAIN | CLOSED.

(** One client object.  The first three fields are the [BufferedSocket]
    base (descriptor and registered interest), [closed] and [buffer] are
    the members declared in VisualizationClient.hxx, and the last two
    record what has reached the outside: the bytes the kernel accepted for
    the peer, oldest first, and the descriptors handed back to the kernel,
    newest first. *)
Record VisualizationClient : Type := mkClient {
  socket : Z;
  scheduled_read : bool;
  scheduled_write : bool;
  closed : bool;
  buffer : list byte;
  wire : list byte;
  released : list Z
}.

Definition IsDefined (c : VisualizationClient) : bool := (0 <=? socket c)%Z.

Definition IsClosed (c : VisualizationClient) : bool := closed c.

Definition set_closed (b : bool) (c : VisualizationClient) : VisualizationClient :=
  mkClient (socket c) (scheduled_read c) (scheduled_write c) b
           (buffer c) (wire c) (released c).

Definition set_buffer (l : list byte) (c : VisualizationClient) : VisualizationClient :=
  mkClient (socket c) (scheduled_read c) (scheduled_write c) (closed c)
           l (wire c) (released c).

(** [event.ScheduleWrite()], [event.CancelWrite()], [event.CancelRead()]. *)
Definition ScheduleWrite (c : VisualizationClient) : VisualizationClient :=
  mkClient (socket c) (scheduled_read c) true (closed c)
           (buffer c) (wire c) (released c).

Definition CancelWrite (c : VisualizationClient) : VisualizationClient :=
  mkClient (socket c) (scheduled_read c) false (closed c)
           (buffer c) (wire c) (released c).

Definition CancelRead (c : VisualizationClient) : VisualizationClient :=
  mkClient (socket c) false (scheduled_write c) (closed c)
           (buffer c) (wire c) (released c).

(** Modelled from the spec: [BufferedSocket::Close] (event/BufferedSocket.hxx
    is not among the sources).  "Cancel all interest, release the socket";
    "releases the socket if not already released (idempotent close)". *)
Definition Close (c : VisualizationClient) : VisualizationClient :=
  if IsDefined c
  then mkClient (-1) false false (closed c) (buffer c) (wire c)
                (socket c :: released c)
  else c.

(** [GetSocket().Write(&buffer[0], buffer.size())]: on an open descriptor
    the kernel answers [a], and when it reports [n >= 0] it has taken the
    first [n] bytes of the buffer; on a released descriptor there is
    nothing to write to and the call fails. *)
Definition GetSocket_Write (a : SendAnswer) (c : VisualizationClient)
  : SendAnswer * VisualizationClient :=
  if IsDefined c then
    if (nbytes a <? 0)%Z then (a, c)
    else (a, mkClient (socket c) (scheduled_read c) (scheduled_write c)
                      (closed c) (buffer c)
                      (wire c ++ firstn (Z.to_nat (nbytes a)) (buffer c))
                      (released c))
  else ({| nbytes := -1; GetSocketError := EBADF |}, c).

(** The constructor: takes the accepted descriptor over, [closed(false)],
    empty buffer.  A new connection waits for its client's input. *)
Definition new_VisualizationClient (fd : Z) : VisualizationClient :=
  mkClient fd true false false [] [] [].

(** The destructor. *)
Definition delete_VisualizationClient (c : VisualizationClient)
  : VisualizationClient :=
  if negb (closed c) then set_closed true (Close c) else c.

(** [OnSocketInput(buf, length)]: [data] is the [length] bytes at [buf].
    [ConsumeInput] only touches the input FIFO of the base class, which
    is not part of this record. *)
Definition OnSocketInput (data : list byte) (c : VisualizationClient)
  : InputResult * VisualizationClient :=
  let c := set_buffer (buffer c ++ data) c in
  let c := ScheduleWrite c in
  (PAUSE, c).

Definition OnSocketError (c : VisualizationClient) : VisualizationClient := c.

Definition OnSocketClosed (c : VisualizationClient) : VisualizationClient :=
  let c := CancelRead c in
  let c := CancelWrite c in
  let c := set_closed true c in
  Close c.

(** The virtual callbacks through which the [BufferedSocket] base reaches
    this class. *)
Inductive Callback : Type :=
| CbInput (data : list byte)
| CbError
| CbClosed.

Definition callback (cb : Callback) (c : VisualizationClient)
  : VisualizationClient :=
  match cb with
  | CbInput data => snd (OnSocketInput data c)
  | CbError => OnSocketError c
  | CbClosed => OnSocketClosed c
  end.

(** Modelled from the spec: [BufferedSocket::OnSocketReady]
    (event/BufferedSocket.cxx is not among the sources).  The transport
    layer reads what is available and hands it to the protocol handler,
    signals closure, or reports an error; each of these reaches the
    client as one of its callbacks.  Which ones it makes depends on what
    the socket delivers, so they are given as [base]. *)
Definition BufferedSocket_OnSocketReady (base : list Callback)
  (c : VisualizationClient) : VisualizationClient :=
  fold_left (fun c cb => callback cb c) base c.

(** A connection stands in one of two ways: alive on its descriptor with
    nothing released, or closed with the descriptor given back once. *)
Definition alive (fd : Z) (c : VisualizationClient) : Prop :=
  closed c = false /\ socket c = fd /\ released c = [].

Definition dead (fd : Z) (c : VisualizationClient) : Prop :=
  closed c = true /\ socket c = (-1)%Z /\ released c = [fd].

Definition lifecycle (fd : Z) (c : VisualizationClient) : Prop :=
  alive fd c \/ dead fd c.

(** The weaker fact that needs no valid descriptor to start from. *)
Definition closed_means_released (c : VisualizationClient) : Prop :=
  closed c = true -> IsDefined c = false.

(** Chunks of input arriving one after the other. *)
Definition receive (chunks : list (list byte)) (c : VisualizationClient)
  : VisualizationClient :=
  fold_left (fun c data => snd (OnSocketInput data c)) chunks c.

Section Ready.
Context {F : SocketEventFlags}.

(** [OnSocketReady(flags)].  [a] is the kernel's answer should the method
    write, [base] what the base class does should the method delegate. *)
Definition OnSocketReady (flags : N) (a : SendAnswer) (base : list Callback)
  (c : VisualizationClient) : VisualizationClient :=
  if negb (N.land flags READ =? 0)%N then
    BufferedSocket_OnSocketReady base c
  else if negb (N.land flags WRITE =? 0)%N then
    let (r, c) := GetSocket_Write a c in
    if (nbytes r <? 0)%Z then
      let e := GetSocketError r in
      if IsSocketErrorSendWouldBlock e then
        ScheduleWrite c
      else
        (* a warning is logged unless [IsSocketErrorClosed e] *)
        let c := set_closed true c in
        Close c
    else
      let c := set_buffer [] c in
      CancelWrite c
  else if negb (N.land flags HANGUP =? 0)%N then
    let c := set_closed true c in
    let c := CancelRead c in
    let c := CancelWrite c in
    Close c
  else
    c.

(** What the event loop can do to a client: signal readiness, or (through
    the base class, outside of [OnSocketReady]) make one of the
    callbacks. *)
Inductive Event : Type :=
| Ready (flags : N) (a : SendAnswer) (base : list Callback)
| Call (cb : Callback).

Definition deliver (ev : Event) (c : VisualizationClient)
  : VisualizationClient :=
  match ev with
  | Ready flags a base => OnSocketReady flags a base c
  | Call cb => callback cb c
  end.

Definition run (evs : list Event) (c : VisualizationClient)
  : VisualizationClient :=
  fold_left (fun c ev => deliver ev c) evs c.


End Ready.

End Client.

(** ** VisualizationServer *)

Module Server.
Import Client.

(** [max_clients] is a [size_t]; [clients] is the [std::list] of owned
    clients in insertion order; [reaper] is the [CoarseTimerEvent]:
    [Some d] when it is due in [d] seconds, [None] when it is idle. *)
Record VisualizationServer : Type := mkServer {
  max_clients : N;
  clients : list VisualizationClient;
  reaper : option N
}.

(** The constructor: [max_clients] is read from the configuration block,
    no clients, the timer not scheduled. *)
Definition new_VisualizationServer (configured_max_clients : N)
  : VisualizationServer :=
  mkServer configured_max_clients [] None.

(** [clients.size()] and [clients.empty()]. *)
Definition size (l : list VisualizationClient) : N := N.of_nat (length l).

Definition empty (l : list VisualizationClient) : bool :=
  match l with [] => true | _ :: _ => false end.

(** [reaper.Schedule(d)]. *)
Definition Schedule (d : N) (s : VisualizationServer) : VisualizationServer :=
  mkServer (max_clients s) (clients s) (Some d).

(** The loop of [ReapClients]: one pass from [begin()] to [end()], erasing
    the elements that are closed.  Returns the list that remains and, in
    order, the erased elements (whose [unique_ptr] deletes them). *)
Fixpoint reap (l : list VisualizationClient)
  : list VisualizationClient * list VisualizationClient :=
  match l with
  | [] => ([], [])
  | p :: rest =>
      let (kept, erased) := reap rest in
      if IsClosed p then (kept, p :: erased) else (p :: kept, erased)
  end.

(** [ReapClients()]: the server afterwards and the clients it deleted. *)
Definition ReapClients (s : VisualizationServer)
  : VisualizationServer * list VisualizationClient :=
  let (kept, erased) := reap (clients s) in
  let s := mkServer (max_clients s) kept (reaper s) in
  if negb (empty (clients s))
  then (Schedule 3 s, erased)
  else (s, erased).

(** [OnAccept(fd, address, uid)]: the server afterwards and, when the
    descriptor was not moved into a client, the descriptor that the
    [UniqueSocketDescriptor] argument closes as it goes out of scope. *)
Definition OnAccept (fd : Z) (s : VisualizationServer)
  : VisualizationServer * option Z :=
  if negb (max_clients s =? 0)%N && (max_clients s <? size (clients s))%N
  then (s, Some fd)
  else
    let s := mkServer (max_clients s)
                      (clients s ++ [new_VisualizationClient fd])
                      (reaper s) in
    (Schedule 3 s, None).

(** Clients connecting one after the other. *)
Definition accept_all (fds : list Z) (s : VisualizationServer)
  : VisualizationServer :=
  fold_left (fun s fd => fst (OnAccept fd s)) fds s.

(** The destructor: the body only logs, then the members go, and with the
    list every client still in it ("child dtors will close sockets").
    Returns the clients as their destructors leave them. *)
Definition delete_VisualizationServer (s : VisualizationServer)
  : list VisualizationClient :=
  map delete_VisualizationClient (clients s).

Section Dispatch.
Context {F : Socket.SocketEventFlags}.

(** The event loop hands an event to the [i]-th client of the list. *)
Fixpoint dispatch_at (i : nat) (ev : Event) (l : list VisualizationClient)
  : list VisualizationClient :=
  match l, i with
  | [], _ => []
  | c :: rest, O => deliver ev c :: rest
  | c :: rest, S j => c :: dispatch_at j ev rest
  end.

Definition dispatch (i : nat) (ev : Event) (s : VisualizationServer)
  : VisualizationServer :=
  mkServer (max_clients s) (dispatch_at i ev (clients s)) (reaper s).

End Dispatch.

End Server.

(** ** Visualization, the state shared with the clients *)

Module Vis.

(** Modelled from the spec: [Timer] (output/Timer.hxx is not among the
    sources).  "{ lastDepositTimestamp: instant, cumulativeBytes: counter,
    started: bool }"; "on first call after open, marks started=true and
    records the start time.  Accumulates cumulativeBytes." *)
Record Timer : Type := mkTimer {
  started : bool;
  lastDepositTimestamp : N;
  cumulativeBytes : N
}.

Definition new_Timer : Timer := mkTimer false 0 0.

Definition IsStarted (t : Timer) : bool := started t.

Definition Start (now : N) (t : Timer) : Timer :=
  mkTimer true now (cumulativeBytes t).

Definition Add (size : N) (t : Timer) : Timer :=
  mkTimer (started t) (lastDepositTimestamp t) (cumulativeBytes t + size).

(** The object: [ptimer] is a [unique_ptr], empty until [Open]. *)
Record Visualization : Type := mkVisualization {
  ptimer : option Timer
}.

Definition new_Visualization : Visualization := mkVisualization None.

Definition Close (v : Visualization) : Visualization := mkVisualization None.

Definition Open {AudioFormat : Type} (audio_format : AudioFormat)
  (v : Visualization) : Visualization :=
  mkVisualization (Some new_Timer).

(** [size_t] counts modulo [2^64]. *)
Definition size_t_modulus : N := 2 ^ 64.

(** What one call of [Play] leaves behind: the value returned, the
    function's [static size_t num_calls], whether the lead report was
    logged, and the object. *)
Record Played : Type := mkPlayed {
  returned : N;
  num_calls_after : N;
  reported : bool;
  object_after : Visualization
}.

(** [Play(const void*, size)].  The chunk pointer has no name in the
    source; [None] stands for a null pointer.  [now] is the clock that
    [Timer::Start] reads, [num_calls] the static counter on entry.  With
    an empty [ptimer] the call dereferences a null pointer and has no
    defined result. *)
Definition Play (chunk : option (list byte)) (size : N) (now : N)
  (num_calls : N) (v : Visualization) : option Played :=
  match ptimer v with
  | None => None
  | Some t =>
      let t := if negb (IsStarted t) then Start now t else t in
      let t := Add size t in
      let num_calls := ((num_calls + 1) mod size_t_modulus)%N in
      let reported := (num_calls mod 500 =? 0)%N in
      Some (mkPlayed size num_calls reported (mkVisualization (Some t)))
  end.

(** A run of calls: per call the chunk, its size and the clock. *)
Record PlayCall : Type := mkCall {
  chunk : option (list byte);
  chunk_size : N;
  clock : N
}.

(** The calls in order; the result lists, per call, the value returned
    and whether the report was logged, then the static counter and the
    object at the end. *)
Fixpoint play_all (calls : list PlayCall) (num_calls : N) (v : Visualization)
  : option (list (N * bool) * N * Visualization) :=
  match calls with
  | [] => Some ([], num_calls, v)
  | c :: rest =>
      match Play (chunk c) (chunk_size c) (clock c) num_calls v with
      | None => None
      | Some p =>
          match play_all rest (num_calls_after p) (object_after p) with
          | None => None
          | Some (outs, n, v') =>
              Some ((returned p, reported p) :: outs, n, v')
          end
      end
  end.

(** The bytes accumulated since [Open], when there is a timer. *)
Definition accumulated (v : Visualization) : option N :=
  option_map cumulativeBytes (ptimer v).

(** The scenario "[Play] called 500 times with size 1024", started with
    the static counter at [num_calls] and the object [v]: every call
    returns 1024, the report is logged on the 500th call and on no other,
    and 500 * 1024 bytes have been accumulated at the end. *)
Definition plays_500_of_1024 (num_calls : N) (v : Visualization) : Prop :=
  forall calls : list PlayCall,
    length calls = 500%nat ->
    (forall c, In c calls -> chunk_size c = 1024%N) ->
    exists n' v',
      play_all calls num_calls v =
        Some (repeat (1024%N, false) 499 ++ [(1024%N, true)], n', v') /\
      accumulated v' = Some (500 * 1024)%N.

End Vis.

(** ** VisualizationOutput, the plugin object *)

Module Output.
Import Server.

(** The two members, in the order of their declaration. *)
Record VisualizationOutput : Type := mkOutput {
  pvis : option Vis.Visualization;
  pserver : option VisualizationServer
}.

(** The constructor: [pvis(new Visualization(...))], then
    [pserver(new VisualizationServer(..., *pvis))]. *)
Definition new_VisualizationOutput (configured_max_clients : N)
  : VisualizationOutput :=
  mkOutput (Some Vis.new_Visualization)
           (Some (new_VisualizationServer configured_max_clients)).

(** What a teardown deletes: the server, together with the clients its
    list held as their destructors leave them, or the shared state. *)
Inductive Deleted : Type :=
| DeletedServer (owned : list Client.VisualizationClient)
| DeletedVisualization.

(** [pserver = 0]: deletes the server when there is one. *)
Definition reset_pserver (o : VisualizationOutput)
  : VisualizationOutput * list Deleted :=
  match pserver o with
  | Some s => (mkOutput (pvis o) None,
               [DeletedServer (delete_VisualizationServer s)])
  | None => (o, [])
  end.

(** [pvis = 0]: deletes the shared state when there is one. *)
Definition reset_pvis (o : VisualizationOutput)
  : VisualizationOutput * list Deleted :=
  match pvis o with
  | Some _ => (mkOutput None (pserver o), [DeletedVisualization])
  | None => (o, [])
  end.

(** The destructor, statement by statement: the two assignments of its
    body, then the members in reverse order of declaration ([pserver],
    then [pvis]).  Each step gives the object after it and what it
    deleted. *)
Definition delete_VisualizationOutput (o : VisualizationOutput)
  : list (VisualizationOutput * list Deleted) :=
  let s1 := reset_pserver o in
  let s2 := reset_pvis (fst s1) in
  let s3 := reset_pserver (fst s2) in
  let s4 := reset_pvis (fst s3) in
  [s1; s2; s3; s4].

(** A server (and with it its clients) holds a reference to the shared
    state: the reference dangles when the server is there and the shared
    state is not. *)
Definition dangling (o : VisualizationOutput) : bool :=
  match pserver o, pvis o with
  | Some _, None => true
  | _, _ => false
  end.

(** [Open], [Close] and [Play] forward to the shared state; through an
    empty [pvis] they have no defined result. *)
Definition Open {AudioFormat : Type} (audio_format : AudioFormat)
  (o : VisualizationOutput) : option VisualizationOutput :=
  match pvis o with
  | Some v => Some (mkOutput (Some (Vis.Open audio_format v)) (pserver o))
  | None => None
  end.

Definition Close (o : VisualizationOutput) : option VisualizationOutput :=
  match pvis o with
  | Some v => Some (mkOutput (Some (Vis.Close v)) (pserver o))
  | None => None
  end.

Definition Play (data : option (list byte)) (size : N) (now : N)
  (num_calls : N) (o : VisualizationOutput)
  : option (Vis.Played * VisualizationOutput) :=
  match pvis o with
  | Some v =>
      match Vis.Play data size now num_calls v with
      | Some p => Some (p, mkOutput (Some (Vis.object_after p)) (pserver o))
      | None => None
      end
  | None => None
  end.

End Output.

(** ** Concrete connections and answers, for running the model *)

Module Sample.
Import Socket Client Server.

(** The four bytes of "ping". *)
Definition ping : list byte := [x70; x69; x6e; x67].

Definition EAGAIN : socket_error_t :=
  {| IsSocketErrorSendWouldBlock := true; IsSocketErrorClosed := false |}.


(** The kernel took [n] bytes. *)
Definition took (n : Z) : SendAnswer :=
  {| nbytes := n; GetSocketError := EBADF |}.

(** The write failed with [e]. *)
Definition failed (e : socket_error_t) : SendAnswer :=
  {| nbytes := -1; GetSocketError := e |}.

(** The connection on descriptor 5 after its client sent "ping". *)
Definition pinged : VisualizationClient :=
  snd (OnSocketInput ping (new_VisualizationClient 5)).

(** A connection on descriptor [fd] whose client has hung up. *)
Definition gone (fd : Z) : VisualizationClient :=
  OnSocketClosed (new_VisualizationClient fd).

End Sample.

(** ** A whole session of one connection *)

Module Session.
Import Socket Client.

Section Flags.
Context {F : SocketEventFlags}.

(** The bytes a callback hands to [OnSocketInput]. *)
Definition input_of_callback (cb : Callback) : list byte :=
  match cb with
  | CbInput data => data
  | CbError | CbClosed => []
  end.

(** The bytes an event brings in: those of the [OnSocketInput] calls it
    leads to.  A readiness event leads to callbacks only when the method
    delegates to the base class, that is when [READ] is set. *)
Definition input_of (ev : Event) : list byte :=
  match ev with
  | Ready flags _ base =>
      if negb (N.land flags READ =? 0)%N
      then flat_map input_of_callback base
      else []
  | Call cb => input_of_callback cb
  end.

Definition received (evs : list Event) : list byte := flat_map input_of evs.

(** The event makes the method write on an open socket, and the kernel
    takes fewer bytes than the buffer holds. *)
Definition short_write (ev : Event) (c : VisualizationClient) : bool :=
  match ev with
  | Ready flags a _ =>
      (N.land flags READ =? 0)%N && negb (N.land flags WRITE =? 0)%N &&
      IsDefined c &&
      (0 <=? nbytes a)%Z && (nbytes a <? Z.of_nat (length (buffer c)))%Z
  | Call _ => false
  end.

(** No event of the session meets a short write. *)
Fixpoint no_short_write (evs : list Event) (c : VisualizationClient) : bool :=
  match evs with
  | [] => true
  | ev :: rest => negb (short_write ev c) && no_short_write rest (deliver ev c)
  end.

(** Output is not left stranded: an open connection with bytes in its
    buffer has asked to be told when it can write. *)
Definition output_is_awaited (c : VisualizationClient) : Prop :=
  closed c = false -> buffer c <> [] -> scheduled_write c = true.

End Flags.

End Session.

(** ** The event loop around one server *)

Module Loop.
Import Socket Client Server.

(** What happens to a server: a client connects, the loop hands an event
    to the [i]-th client, somebody calls [ReapClients], or the timer is
    due and calls it. *)
Inductive Step : Type :=
| Accept (fd : Z)
| Deliver (i : nat) (ev : Event)
| Reap
| Fire.

(** Modelled from the spec: the expiry of the [CoarseTimerEvent]
    (event/CoarseTimerEvent.hxx is not among the sources).  A timer that
    is due is no longer scheduled when its callback runs: the callback
    "reschedules itself", "otherwise the reaper goes idle until the next
    accept". *)
Definition expire (s : VisualizationServer) : VisualizationServer :=
  mkServer (max_clients s) (clients s) None.

(** The server, and the descriptors given back to the kernel on behalf
    of objects that are no longer in its list: connections refused and
    clients deleted. *)
Record World : Type := mkWorld {
  server : VisualizationServer;
  closed_fds : list Z
}.

Definition new_World (configured_max_clients : N) : World :=
  mkWorld (new_VisualizationServer configured_max_clients) [].

(** The descriptors a deleted client has released when it is gone. *)
Definition released_at_deletion (c : VisualizationClient) : list Z :=
  released (delete_VisualizationClient c).

Section Flags.
Context {F : SocketEventFlags}.

Definition step (st : Step) (w : World) : World :=
  match st with
  | Accept fd =>
      let (s, refused) := OnAccept fd (server w) in
      mkWorld s (match refused with
                 | Some fd' => fd' :: closed_fds w
                 | None => closed_fds w
                 end)
  | Deliver i ev => mkWorld (dispatch i ev (server w)) (closed_fds w)
  | Reap =>
      let (s, erased) := ReapClients (server w) in
      mkWorld s (flat_map released_at_deletion erased ++ closed_fds w)
  | Fire =>
      let (s, erased) := ReapClients (expire (server w)) in
      mkWorld s (flat_map released_at_deletion erased ++ closed_fds w)
  end.

Definition run (sts : list Step) (w : World) : World :=
  fold_left (fun w st => step st w) sts w.

(** The server goes away: every client still in the list is deleted. *)
Definition shutdown (w : World) : list Z :=
  flat_map released (delete_VisualizationServer (server w)) ++ closed_fds w.

End Flags.

(** The descriptors that connected, in order. *)
Definition accepted (sts : list Step) : list Z :=
  flat_map (fun st => match st with Accept fd => [fd] | _ => [] end) sts.

(** The descriptor a client still holds open. *)
Definition held (c : VisualizationClient) : list Z :=
  if IsDefined c then [socket c] else [].

Definition open_fds (s : VisualizationServer) : list Z :=
  flat_map held (clients s).

Definition released_fds (s : VisualizationServer) : list Z :=
  flat_map released (clients s).

(** A client made on the valid descriptor [fd], in one of its two
    states. *)
Definition made_on (fd : Z) (c : VisualizationClient) : Prop :=
  (0 <= fd)%Z /\ lifecycle fd c.

(** What the proofs carry along a history: the clients of the list were
    made on the descriptors [fds], one each, and these together with the
    descriptors closed for objects that are gone are the descriptors
    [acc] that connected. *)
Definition accounts (acc : list Z) (w : World) : Prop :=
  exists fds : list Z,
    Forall2 made_on fds (clients (server w)) /\
    Permutation acc (fds ++ closed_fds w).

End Loop.

(** * Properties *)

Import Socket Client Server.

Ltac handlers :=
  unfold OnSocketClosed, OnSocketError, OnSocketInput, delete_VisualizationClient,
    CancelRead, CancelWrite, ScheduleWrite, set_closed, set_buffer, Close,
    IsClosed, IsDefined in *;
  cbn [socket scheduled_read scheduled_write closed buffer wire released
       fst snd] in *.

(** ** The accept path *)

Section Accept.

Lemma size_app_one (l : list VisualizationClient) (c : VisualizationClient) :
  size (l ++ [c]) = (size l + 1)%N.
Proof. unfold size. rewrite length_app. simpl. lia. Qed.

(** [OnAccept] leaves the configured ceiling alone. *)
Lemma OnAccept_max_clients (fd : Z) (s : VisualizationServer) :
  max_clients (fst (OnAccept fd s)) = max_clients s.
Proof.
  unfold OnAccept.
  destruct (negb (max_clients s =? 0)%N && (max_clients s <? size (clients s))%N);
    reflexivity.
Qed.

(** A connection is refused exactly when the list is already longer than
    a non-zero ceiling; otherwise it is appended. *)
Lemma OnAccept_cases (fd : Z) (s : VisualizationServer) :
  (max_clients s <> 0%N /\ (max_clients s < size (clients s))%N /\
   OnAccept fd s = (s, Some fd)) \/
  ((max_clients s = 0%N \/ (size (clients s) <= max_clients s)%N) /\
   clients (fst (OnAccept fd s)) = clients s ++ [new_VisualizationClient fd] /\
   snd (OnAccept fd s) = None).
Proof.
  unfold OnAccept.
  destruct (N.eqb_spec (max_clients s) 0) as [E | E]; simpl.
  - right. auto.
  - destruct (N.ltb_spec (max_clients s) (size (clients s))) as [L | L].
    + left. auto.
    + right. auto.
Qed.

(** What the check does guarantee for a bounded server: the list never
    grows beyond the ceiling plus one. *)
Lemma OnAccept_bound (fd : Z) (s : VisualizationServer) :
  max_clients s <> 0%N ->
  (size (clients s) <= max_clients s + 1)%N ->
  (size (clients (fst (OnAccept fd s))) <= max_clients s + 1)%N.
Proof.
  intros Hm Hs.
  destruct (OnAccept_cases fd s) as [(_ & _ & E) | ([E | E] & C & _)].
  - rewrite E. exact Hs.
  - contradiction.
  - rewrite C, size_app_one. lia.
Qed.

Lemma accept_all_bound (fds : list Z) (s : VisualizationServer) :
  max_clients s <> 0%N ->
  (size (clients s) <= max_clients s + 1)%N ->
  (size (clients (accept_all fds s)) <= max_clients s + 1)%N.
Proof.
  revert s. induction fds as [| fd fds IH]; intros s Hm Hs; simpl.
  - exact Hs.
  - unfold accept_all in *. simpl.
    specialize (IH (fst (OnAccept fd s))).
    rewrite OnAccept_max_clients in IH.
    apply IH; [exact Hm | apply OnAccept_bound; assumption].
Qed.

(** C1, evaluated on the code.  With [max_clients = 2] and three clients
    connecting one after the other to a new server, the first two are
    appended, and so is the third: [OnAccept] closes no descriptor, and
    the list ends with three clients, one more than the ceiling.  It is
    the fourth client that is turned away. *)
Theorem OnAccept_third_of_two_admitted :
  let s0 := new_VisualizationServer 2 in
  let s2 := accept_all [5; 6]%Z s0 in
  let s3 := accept_all [5; 6; 7]%Z s0 in
  map socket (clients s2) = [5; 6]%Z /\
  OnAccept 7 s2 = (s3, None) /\
  map socket (clients s3) = [5; 6; 7]%Z /\
  (max_clients s3 < size (clients s3))%N /\
  OnAccept 8 s3 = (s3, Some 8%Z).
Proof. vm_compute. repeat split. Qed.

End Accept.

(** ** The reaper *)

Section Reaper.

Lemma reap_filter (l : list VisualizationClient) :
  reap l = (filter (fun c => negb (IsClosed c)) l, filter IsClosed l).
Proof.
  induction l as [| p rest IH]; simpl.
  - reflexivity.
  - rewrite IH. destruct (IsClosed p); reflexivity.
Qed.

Lemma empty_nil (l : list VisualizationClient) : empty l = true <-> l = [].
Proof. destruct l; simpl; split; congruence. Qed.

(** What [ReapClients] keeps, what it erases, and what it does to the
    timer. *)
Lemma ReapClients_filters (s : VisualizationServer) :
  clients (fst (ReapClients s)) =
    filter (fun c => negb (IsClosed c)) (clients s) /\
  snd (ReapClients s) = filter IsClosed (clients s) /\
  max_clients (fst (ReapClients s)) = max_clients s.
Proof.
  unfold ReapClients. rewrite reap_filter. cbn [clients].
  destruct (filter (fun c => negb (IsClosed c)) (clients s));
    repeat split; reflexivity.
Qed.

Lemma ReapClients_timer (s : VisualizationServer) :
  (clients (fst (ReapClients s)) <> [] /\
   reaper (fst (ReapClients s)) = Some 3%N) \/
  (clients (fst (ReapClients s)) = [] /\
   reaper (fst (ReapClients s)) = reaper s).
Proof.
  unfold ReapClients. rewrite reap_filter. cbn [clients].
  destruct (filter (fun c => negb (IsClosed c)) (clients s)); cbn.
  - right. split; reflexivity.
  - left. split; [discriminate | reflexivity].
Qed.

Lemma ReapClients_erases_closed (s : VisualizationServer)
  (c : VisualizationClient) :
  In c (clients s) -> IsClosed c = true ->
  In c (snd (ReapClients s)) /\ ~ In c (clients (fst (ReapClients s))).
Proof.
  intros I C. destruct (ReapClients_filters s) as (K & E & _).
  rewrite K, E. split.
  - apply filter_In. split; assumption.
  - rewrite filter_In. intros [_ X]. rewrite C in X. discriminate X.
Qed.

Lemma ReapClients_keeps_open (s : VisualizationServer)
  (c : VisualizationClient) :
  In c (clients s) -> IsClosed c = false ->
  In c (clients (fst (ReapClients s))) /\ ~ In c (snd (ReapClients s)).
Proof.
  intros I C. destruct (ReapClients_filters s) as (K & E & _).
  rewrite K, E. split.
  - apply filter_In. rewrite C. split; [assumption | reflexivity].
  - rewrite filter_In. intros [_ X]. congruence.
Qed.

(** C4.  [ReapClients] goes through the list once and erases (deletes)
    exactly the clients whose [IsClosed()] is true, keeping the others in
    their order; so no closed client survives a call.  It schedules the
    timer 3 seconds ahead if and only if clients remain; otherwise it
    leaves the timer alone, which, when the call is the timer's own
    callback (the timer has fired and is not pending), means it stays idle. *)
Theorem ReapClients_spec (s : VisualizationServer) :
  let s' := fst (ReapClients s) in
  let erased := snd (ReapClients s) in
  clients s' = filter (fun c => negb (IsClosed c)) (clients s) /\
  erased = filter IsClosed (clients s) /\
  (forall c, In c (clients s) -> IsClosed c = true ->
             In c erased /\ ~ In c (clients s')) /\
  (forall c, In c (clients s) -> IsClosed c = false ->
             In c (clients s') /\ ~ In c erased) /\
  max_clients s' = max_clients s /\
  ((clients s' <> [] /\ reaper s' = Some 3%N) \/
   (clients s' = [] /\ reaper s' = reaper s)) /\
  (reaper s = None -> (reaper s' = Some 3%N <-> clients s' <> [])).
Proof.
  cbv zeta.
  destruct (ReapClients_filters s) as (K & E & M).
  pose proof (ReapClients_timer s) as T.
  split; [exact K |]. split; [exact E |].
  split; [apply ReapClients_erases_closed |].
  split; [apply ReapClients_keeps_open |].
  split; [exact M |]. split; [exact T |].
  intro Idle. split.
  - intro R. destruct T as [[NE _] | [_ R']]; [exact NE | congruence].
  - intro NE. destruct T as [[_ R] | [Em _]]; [exact R | contradiction].
Qed.

End Reaper.

(** ** One connection *)

Section Connection.
Context {F : SocketEventFlags}.

(** The three branches of [OnSocketReady] that do not delegate. *)
Lemma OnSocketReady_read (flags : N) a base c :
  N.land flags READ <> 0%N ->
  OnSocketReady flags a base c = BufferedSocket_OnSocketReady base c.
Proof.
  intro R. unfold OnSocketReady.
  destruct (N.eqb_spec (N.land flags READ) 0); [contradiction | reflexivity].
Qed.

Lemma OnSocketReady_write (flags : N) a base c :
  N.land flags READ = 0%N -> N.land flags WRITE <> 0%N ->
  OnSocketReady flags a base c =
  let (r, c) := GetSocket_Write a c in
  if (nbytes r <? 0)%Z then
    if IsSocketErrorSendWouldBlock (GetSocketError r) then ScheduleWrite c
    else Close (set_closed true c)
  else CancelWrite (set_buffer [] c).
Proof.
  intros R W. unfold OnSocketReady. rewrite R. simpl.
  destruct (N.eqb_spec (N.land flags WRITE) 0); [contradiction | reflexivity].
Qed.

Lemma OnSocketReady_hangup (flags : N) a base c :
  N.land flags READ = 0%N -> N.land flags WRITE = 0%N ->
  N.land flags HANGUP <> 0%N ->
  OnSocketReady flags a base c =
  Close (CancelWrite (CancelRead (set_closed true c))).
Proof.
  intros R W H. unfold OnSocketReady. rewrite R, W. simpl.
  destruct (N.eqb_spec (N.land flags HANGUP) 0); [contradiction | reflexivity].
Qed.

Lemma OnSocketReady_other (flags : N) a base c :
  N.land flags READ = 0%N -> N.land flags WRITE = 0%N ->
  N.land flags HANGUP = 0%N ->
  OnSocketReady flags a base c = c.
Proof.
  intros R W H. unfold OnSocketReady. rewrite R, W, H. reflexivity.
Qed.

(** Which branch a set of flags selects. *)
Lemma flags_cases (flags : N) :
  N.land flags READ <> 0%N \/
  (N.land flags READ = 0%N /\ N.land flags WRITE <> 0%N) \/
  (N.land flags READ = 0%N /\ N.land flags WRITE = 0%N /\
   N.land flags HANGUP <> 0%N) \/
  (N.land flags READ = 0%N /\ N.land flags WRITE = 0%N /\
   N.land flags HANGUP = 0%N).
Proof.
  destruct (N.eq_dec (N.land flags READ) 0);
    destruct (N.eq_dec (N.land flags WRITE) 0);
    destruct (N.eq_dec (N.land flags HANGUP) 0); tauto.
Qed.

(** *** Writing *)

(** A write that would block: interest is renewed, nothing else moves. *)
Lemma OnSocketReady_would_block (flags : N) a base c :
  N.land flags READ = 0%N -> N.land flags WRITE <> 0%N ->
  IsDefined c = true ->
  (nbytes a < 0)%Z ->
  IsSocketErrorSendWouldBlock (GetSocketError a) = true ->
  OnSocketReady flags a base c = ScheduleWrite c.
Proof.
  intros R W D Neg WB. rewrite OnSocketReady_write by assumption.
  unfold GetSocket_Write. rewrite D.
  apply Z.ltb_lt in Neg. rewrite Neg, Neg, WB. reflexivity.
Qed.

(** Any answer [n >= 0] is taken for a complete write: the buffer is
    emptied and the interest in writing dropped, although only the first
    [n] bytes went out. *)
Lemma OnSocketReady_wrote (flags : N) a base c :
  N.land flags READ = 0%N -> N.land flags WRITE <> 0%N ->
  IsDefined c = true ->
  (0 <= nbytes a)%Z ->
  let c' := OnSocketReady flags a base c in
  buffer c' = [] /\ scheduled_write c' = false /\
  wire c' = wire c ++ firstn (Z.to_nat (nbytes a)) (buffer c) /\
  closed c' = closed c /\ socket c' = socket c /\ released c' = released c.
Proof.
  intros R W D Pos. cbv zeta. rewrite OnSocketReady_write by assumption.
  unfold GetSocket_Write. rewrite D.
  apply Z.ltb_ge in Pos. rewrite Pos. cbn [nbytes]. rewrite Pos.
  handlers. repeat split; reflexivity.
Qed.

(** A write that fails for another reason than "would block". *)
Lemma OnSocketReady_write_error (flags : N) a base c :
  N.land flags READ = 0%N -> N.land flags WRITE <> 0%N ->
  IsDefined c = true ->
  (nbytes a < 0)%Z ->
  IsSocketErrorSendWouldBlock (GetSocketError a) = false ->
  OnSocketReady flags a base c = Close (set_closed true c).
Proof.
  intros R W D Neg WB. rewrite OnSocketReady_write by assumption.
  unfold GetSocket_Write. rewrite D.
  apply Z.ltb_lt in Neg. rewrite Neg, Neg, WB. reflexivity.
Qed.

(** Writing on a released descriptor. *)
Lemma OnSocketReady_write_released (flags : N) a base c :
  N.land flags READ = 0%N -> N.land flags WRITE <> 0%N ->
  IsDefined c = false ->
  OnSocketReady flags a base c = set_closed true c.
Proof.
  intros R W D. rewrite OnSocketReady_write by assumption.
  unfold GetSocket_Write. rewrite D. simpl.
  unfold Close. unfold IsDefined in *. cbn [set_closed socket]. rewrite D.
  reflexivity.
Qed.

(** *** The echo *)

Lemma receive_spec (chunks : list (list byte)) (c : VisualizationClient) :
  buffer (receive chunks c) = buffer c ++ concat chunks /\
  wire (receive chunks c) = wire c /\
  socket (receive chunks c) = socket c /\
  closed (receive chunks c) = closed c /\
  released (receive chunks c) = released c.
Proof.
  revert c. induction chunks as [| d ds IH]; intro c.
  - simpl. rewrite app_nil_r. repeat split; reflexivity.
  - unfold receive in *. cbn [fold_left concat].
    destruct (IH (snd (OnSocketInput d c))) as (B & W & S & C & R).
    rewrite B, W, S, C, R. handlers. rewrite <- app_assoc.
    repeat split; reflexivity.
Qed.

Lemma receive_schedules_write (chunks : list (list byte)) (c : VisualizationClient) :
  chunks <> [] -> scheduled_write (receive chunks c) = true.
Proof.
  destruct chunks as [| d ds] using rev_ind; [congruence | intros _].
  unfold receive. rewrite fold_left_app. reflexivity.
Qed.

(** C3.  Whatever a client sends, in however many chunks, is what a
    complete flush puts on the wire, byte for byte and in order, after
    anything that was still waiting in the buffer; afterwards the buffer
    is empty, the interest in writing is dropped and the connection is as
    alive as before.  A flush is complete when the kernel reports all of
    the buffer as taken. *)
Theorem echo_round_trip (flags : N) (a : SendAnswer) (base : list Callback)
  (chunks : list (list byte)) (c : VisualizationClient) :
  IsDefined c = true ->
  N.land flags READ = 0%N -> N.land flags WRITE <> 0%N ->
  nbytes a = Z.of_nat (length (buffer (receive chunks c))) ->
  let c' := OnSocketReady flags a base (receive chunks c) in
  wire c' = wire c ++ buffer c ++ concat chunks /\
  buffer c' = [] /\
  scheduled_write c' = false /\
  closed c' = closed c.
Proof.
  intros D R W Full.
  destruct (receive_spec chunks c) as (B & Wr & S & C & _).
  assert (D' : IsDefined (receive chunks c) = true).
  { unfold IsDefined in *. rewrite S. exact D. }
  assert (Pos : (0 <= nbytes a)%Z) by lia.
  destruct (OnSocketReady_wrote flags a base (receive chunks c) R W D' Pos)
    as (Eb & Es & Ew & Ec & _).
  cbv zeta. rewrite Eb, Es, Ew, Ec, Full, Nat2Z.id, firstn_all, B, Wr, C.
  repeat split; reflexivity.
Qed.

(** *** Failures *)

Lemma dispatch_at_length (i : nat) (ev : Event) (l : list VisualizationClient) :
  length (dispatch_at i ev l) = length l.
Proof.
  revert i. induction l as [| c rest IH]; intros [| j]; simpl; auto.
Qed.






(** *** The liveness flag *)

(** Closing, once the flag is set, ends in [dead] from either side. *)
Lemma Close_dead (fd : Z) (c c2 : VisualizationClient) :
  (0 <= fd)%Z -> lifecycle fd c ->
  socket c2 = socket c -> released c2 = released c -> closed c2 = true ->
  dead fd (Close c2).
Proof.
  intros V L S2 R2 C2. unfold Close, IsDefined, dead. rewrite S2.
  destruct L as [(C & S & R) | (C & S & R)]; rewrite S.
  - apply Z.leb_le in V. rewrite V. cbn. rewrite R2, R.
    repeat split. exact C2.
  - cbn. rewrite S2, R2. repeat split; assumption.
Qed.

Lemma callback_lifecycle (fd : Z) (cb : Callback) (c : VisualizationClient) :
  (0 <= fd)%Z -> lifecycle fd c -> lifecycle fd (callback cb c).
Proof.
  intros V L. destruct cb; cbn [callback].
  - destruct L as [(C & S & R) | (C & S & R)]; [left | right];
      handlers; repeat split; assumption.
  - exact L.
  - right. unfold OnSocketClosed.
    apply (Close_dead (c := c)); auto.
Qed.

Lemma OnSocketReady_lifecycle (fd : Z) flags a base (c : VisualizationClient) :
  (0 <= fd)%Z -> lifecycle fd c -> lifecycle fd (OnSocketReady flags a base c).
Proof.
  intros V L.
  destruct (flags_cases flags) as [R | [(R & W) | [(R & W & H) | (R & W & H)]]].
  - rewrite OnSocketReady_read by assumption.
    unfold BufferedSocket_OnSocketReady. revert c L.
    induction base as [| cb cbs IH]; intros c L; simpl; [exact L |].
    apply IH, callback_lifecycle; assumption.
  - destruct (IsDefined c) eqn:D.
    + destruct (Z.ltb_spec (nbytes a) 0) as [Neg | Pos].
      * destruct (IsSocketErrorSendWouldBlock (GetSocketError a)) eqn:WB.
        -- rewrite OnSocketReady_would_block by assumption.
           destruct L as [(C & S & Rl) | (C & S & Rl)]; [left | right];
             handlers; repeat split; assumption.
        -- rewrite OnSocketReady_write_error by assumption.
           right. apply (Close_dead (c := c)); auto.
      * destruct (OnSocketReady_wrote flags a base c R W D Pos)
          as (_ & _ & _ & Ec & Es & Er).
        destruct L as [(C & S & Rl) | (C & S & Rl)]; [left | right];
          unfold alive, dead; rewrite Ec, Es, Er; repeat split; assumption.
    + rewrite OnSocketReady_write_released by assumption.
      destruct L as [(C & S & Rl) | (C & S & Rl)].
      * unfold IsDefined in D. rewrite S in D. apply Z.leb_gt in D. lia.
      * right. handlers. repeat split; assumption.
  - rewrite OnSocketReady_hangup by assumption.
    right. apply (Close_dead (c := c)); auto.
  - rewrite OnSocketReady_other by assumption. exact L.
Qed.

Lemma run_lifecycle (fd : Z) (evs : list Event) (c : VisualizationClient) :
  (0 <= fd)%Z -> lifecycle fd c -> lifecycle fd (run evs c).
Proof.
  intro V. revert c. induction evs as [| ev evs IH]; intros c L; simpl.
  - exact L.
  - apply IH. destruct ev as [flags a base | cb]; cbn [deliver].
    + apply OnSocketReady_lifecycle; assumption.
    + apply callback_lifecycle; assumption.
Qed.

Lemma new_lifecycle (fd : Z) : lifecycle fd (new_VisualizationClient fd).
Proof. left. repeat split; reflexivity. Qed.

(** Once closed and released, a connection stays so under any event, and
    neither its wire nor its list of released descriptors moves. *)
Lemma callback_inert (cb : Callback) (c : VisualizationClient) :
  closed c = true -> IsDefined c = false ->
  let c' := callback cb c in
  closed c' = true /\ IsDefined c' = false /\
  wire c' = wire c /\ released c' = released c.
Proof.
  intros C D. destruct cb; cbn [callback]; handlers;
    try rewrite D; cbn; repeat split; assumption.
Qed.

Lemma deliver_inert (ev : Event) (c : VisualizationClient) :
  closed c = true -> IsDefined c = false ->
  let c' := deliver ev c in
  closed c' = true /\ IsDefined c' = false /\
  wire c' = wire c /\ released c' = released c.
Proof.
  intros C D. destruct ev as [flags a base | cb]; cbn [deliver];
    [| apply callback_inert; assumption].
  destruct (flags_cases flags) as [R | [(R & W) | [(R & W & H) | (R & W & H)]]].
  - rewrite OnSocketReady_read by assumption.
    unfold BufferedSocket_OnSocketReady. revert c C D.
    induction base as [| cb cbs IH]; intros c C D; simpl; [auto |].
    destruct (callback_inert cb c C D) as (C1 & D1 & W1 & R1).
    destruct (IH _ C1 D1) as (C2 & D2 & W2 & R2).
    rewrite <- W1, <- R1. auto.
  - rewrite OnSocketReady_write_released by assumption.
    handlers. repeat split; auto.
  - rewrite OnSocketReady_hangup by assumption.
    handlers. rewrite D. cbn. repeat split; auto.
  - rewrite OnSocketReady_other by assumption. auto.
Qed.

Lemma run_inert (evs : list Event) (c : VisualizationClient) :
  closed c = true -> IsDefined c = false ->
  let c' := run evs c in
  closed c' = true /\ IsDefined c' = false /\
  wire c' = wire c /\ released c' = released c.
Proof.
  revert c. induction evs as [| ev evs IH]; intros c C D; simpl; [auto |].
  destruct (deliver_inert ev c C D) as (C1 & D1 & W1 & R1).
  destruct (IH _ C1 D1) as (C2 & D2 & W2 & R2).
  rewrite <- W1, <- R1. auto.
Qed.

Lemma callback_closed_means_released (cb : Callback) (c : VisualizationClient) :
  closed_means_released c -> closed_means_released (callback cb c).
Proof.
  unfold closed_means_released. intros J.
  destruct cb; cbn [callback]; handlers; auto.
  intros _. destruct (0 <=? socket c)%Z eqn:D; cbn; auto.
Qed.

Lemma deliver_closed_means_released (ev : Event) (c : VisualizationClient) :
  closed_means_released c -> closed_means_released (deliver ev c).
Proof.
  intro J. destruct ev as [flags a base | cb]; cbn [deliver];
    [| apply callback_closed_means_released; assumption].
  destruct (flags_cases flags) as [R | [(R & W) | [(R & W & H) | (R & W & H)]]].
  - rewrite OnSocketReady_read by assumption.
    unfold BufferedSocket_OnSocketReady. revert c J.
    induction base as [| cb cbs IH]; intros c J; simpl; [exact J |].
    apply IH, callback_closed_means_released, J.
  - destruct (IsDefined c) eqn:D.
    + destruct (Z.ltb_spec (nbytes a) 0) as [Neg | Pos].
      * destruct (IsSocketErrorSendWouldBlock (GetSocketError a)) eqn:WB.
        -- rewrite OnSocketReady_would_block by assumption.
           unfold closed_means_released in *. handlers. exact J.
        -- rewrite OnSocketReady_write_error by assumption.
           unfold closed_means_released. handlers. rewrite D. reflexivity.
      * destruct (OnSocketReady_wrote flags a base c R W D Pos)
          as (_ & _ & _ & Ec & Es & _).
        unfold closed_means_released, IsDefined in *. rewrite Ec, Es. exact J.
    + rewrite OnSocketReady_write_released by assumption.
      unfold closed_means_released. handlers. intros _. exact D.
  - rewrite OnSocketReady_hangup by assumption.
    unfold closed_means_released. handlers. intros _.
    destruct (0 <=? socket c)%Z eqn:D; cbn; auto.
  - rewrite OnSocketReady_other by assumption. exact J.
Qed.

Lemma run_closed_means_released (evs : list Event) (c : VisualizationClient) :
  closed_means_released c -> closed_means_released (run evs c).
Proof.
  revert c. induction evs as [| ev evs IH]; intros c J; simpl; [exact J |].
  apply IH, deliver_closed_means_released, J.
Qed.

(** C6.  Take a connection from its constructor through any events; if
    its flag reads closed at some point, then whatever events follow, the
    flag still reads closed, the descriptor is and stays released, not
    one more byte goes out on the wire and nothing more is released. *)
Theorem closed_is_terminal (fd : Z) (before after : list Event) :
  let c := run before (new_VisualizationClient fd) in
  IsClosed c = true ->
  let c' := run after c in
  IsClosed c' = true /\
  IsDefined c = false /\ IsDefined c' = false /\
  wire c' = wire c /\
  released c' = released c.
Proof.
  intros c C c'.
  assert (D : IsDefined c = false).
  { apply (run_closed_means_released before (c := new_VisualizationClient fd));
      [intro X; discriminate X | exact C]. }
  destruct (run_inert after c C D) as (C' & D' & W' & R').
  repeat split; assumption.
Qed.

(** C9.  Whatever a connection on a valid descriptor has been through,
    its destructor releases the socket exactly when it was not released
    before: after [OnSocketClosed], or on any connection whose flag is
    set, the destructor changes nothing; a second run of it changes
    nothing either; and in every case the descriptor has been given back
    exactly once when the object is gone. *)
Theorem close_is_idempotent (fd : Z) (evs : list Event) :
  (0 <= fd)%Z ->
  let c := run evs (new_VisualizationClient fd) in
  delete_VisualizationClient (OnSocketClosed c) = OnSocketClosed c /\
  (closed c = true -> delete_VisualizationClient c = c) /\
  delete_VisualizationClient (delete_VisualizationClient c) =
    delete_VisualizationClient c /\
  (closed c = false <-> released c = []) /\
  released (OnSocketClosed c) = [fd] /\
  released (delete_VisualizationClient c) = [fd] /\
  released (delete_VisualizationClient (OnSocketClosed c)) = [fd] /\
  IsDefined (delete_VisualizationClient c) = false.
Proof.
  intros V c.
  assert (L : lifecycle fd c) by (apply run_lifecycle; [exact V | apply new_lifecycle]).
  assert (Lc : lifecycle fd (OnSocketClosed c)) by (apply (callback_lifecycle CbClosed V L)).
  assert (Cc : closed (OnSocketClosed c) = true).
  { handlers. destruct (0 <=? socket c)%Z; reflexivity. }
  assert (Id : forall x, closed x = true -> delete_VisualizationClient x = x).
  { intros x X. unfold delete_VisualizationClient. rewrite X. reflexivity. }
  assert (Dd : forall x, lifecycle fd x ->
             dead fd (delete_VisualizationClient x)).
  { intros x Lx. destruct (closed x) eqn:C.
    - rewrite Id by exact C.
      destruct Lx as [(C' & _) | Dx]; [congruence | exact Dx].
    - unfold delete_VisualizationClient. rewrite C. cbn [negb].
      destruct (@Close_dead fd x (set_closed true x) V Lx
                  eq_refl eq_refl eq_refl) as (_ & S & R).
      revert S R. handlers. destruct (0 <=? socket x)%Z; cbn;
        intros S R; repeat split; assumption. }
  repeat split.
  - apply Id, Cc.
  - apply Id.
  - apply Id. apply (Dd c L).
  - destruct L as [(C & S & R) | (C & S & R)]; [intros _; exact R | congruence].
  - destruct L as [(C & S & R) | (C & S & R)]; [intros _; exact C | rewrite R; discriminate].
  - destruct Lc as [(C & _) | (_ & _ & R)]; [congruence | exact R].
  - apply (Dd c L).
  - apply (Dd _ Lc).
  - destruct (Dd c L) as (_ & S & _). unfold IsDefined. rewrite S. reflexivity.
Qed.

End Connection.

(** *** Concrete runs of a connection *)

(** C2, evaluated on the code.  The connection holds "ping" and is told
    it may write; the kernel takes two of the four bytes.  The method
    treats this as a complete write: it empties the buffer and drops its
    interest in writing, so "ng" is never sent, while the connection
    stays open. *)
Theorem short_write_loses_unsent_bytes :
  let c := Sample.pinged in
  let c' := OnSocketReady (F := epoll) 4 (Sample.took 2) [] c in
  (IsClosed c = false /\ buffer c = Sample.ping /\ scheduled_write c = true) /\
  wire c' = [x70; x69] /\
  buffer c' = [] /\
  scheduled_write c' = false /\
  IsClosed c' = false /\ IsDefined c' = true.
Proof. vm_compute. repeat split; reflexivity. Qed.

(** The client sends "ping", the flush is complete: "ping" is on the
    wire, the buffer is empty and the interest in writing is dropped. *)
Lemma echo_ping :
  let c' := OnSocketReady (F := epoll) 4 (Sample.took 4) []
              (receive [Sample.ping] (new_VisualizationClient 5)) in
  wire c' = Sample.ping /\ buffer c' = [] /\
  scheduled_write c' = false /\ closed c' = false.
Proof.
  exact (@echo_round_trip epoll 4 (Sample.took 4) [] [Sample.ping]
           (new_VisualizationClient 5)
           eq_refl eq_refl (fun E : 4%N = 0%N => N.neq_succ_0 3 E) eq_refl).
Defined.



(** A hangup, then a writable event, more input and a readable event:
    nothing of it gets through. *)
Lemma closed_is_terminal_after_hangup :
  let c := run (F := epoll)
             [Call (CbInput Sample.ping); Ready 16 (Sample.took 0) []]
             (new_VisualizationClient 5) in
  let c' := run (F := epoll)
              [Ready 4 (Sample.took 4) []; Call (CbInput Sample.ping);
               Ready 1 (Sample.took 0) [CbInput Sample.ping];
               Ready 4 (Sample.failed Sample.EAGAIN) []] c in
  IsClosed c' = true /\
  IsDefined c = false /\ IsDefined c' = false /\
  wire c' = [] /\ released c' = [5%Z].
Proof.
  exact (@closed_is_terminal epoll 5
           [Call (CbInput Sample.ping); Ready 16 (Sample.took 0) []]
           [Ready 4 (Sample.took 4) []; Call (CbInput Sample.ping);
            Ready 1 (Sample.took 0) [CbInput Sample.ping];
            Ready 4 (Sample.failed Sample.EAGAIN) []]
           eq_refl).
Defined.

(** A connection that echoed nothing yet, closed by its peer and then
    deleted by the reaper: descriptor 5 is given back once. *)
Lemma close_twice_releases_once :
  let c := run (F := epoll) [Call (CbInput Sample.ping)]
             (new_VisualizationClient 5) in
  delete_VisualizationClient (OnSocketClosed c) = OnSocketClosed c /\
  (closed c = true -> delete_VisualizationClient c = c) /\
  delete_VisualizationClient (delete_VisualizationClient c) =
    delete_VisualizationClient c /\
  (closed c = false <-> released c = []) /\
  released (OnSocketClosed c) = [5%Z] /\
  released (delete_VisualizationClient c) = [5%Z] /\
  released (delete_VisualizationClient (OnSocketClosed c)) = [5%Z] /\
  IsDefined (delete_VisualizationClient c) = false.
Proof.
  exact (@close_is_idempotent epoll 5 [Call (CbInput Sample.ping)]
           (proj1 (Z.leb_le 0 5) eq_refl)).
Defined.

(** Three clients, the first and the last of them gone: the reaper keeps
    the one in the middle and schedules itself again. *)
Lemma reap_two_of_three :
  let s := mkServer 0 [Sample.gone 5; new_VisualizationClient 6; Sample.gone 7]
                    None in
  map socket (clients s) = [-1; 6; -1]%Z /\
  clients (fst (ReapClients s)) = [new_VisualizationClient 6] /\
  snd (ReapClients s) = [Sample.gone 5; Sample.gone 7] /\
  reaper (fst (ReapClients s)) = Some 3%N.
Proof.
  pose proof (ReapClients_spec
                (mkServer 0 [Sample.gone 5; new_VisualizationClient 6;
                             Sample.gone 7] None))
    as (K & E & _ & _ & _ & _ & T).
  cbv zeta.
  refine (conj eq_refl (conj K (conj E _))).
  apply T; [reflexivity |]. rewrite K. discriminate.
Defined.

(** ** The shared state *)

Section Shared.
Import Vis.

Lemma counter_step_quiet (n : N) :
  (n mod 500 < 499)%N -> (n + 1 < size_t_modulus)%N ->
  ((n + 1) mod size_t_modulus = n + 1)%N /\
  (((n + 1) mod size_t_modulus) mod 500 = n mod 500 + 1)%N.
Proof.
  intros Q B. rewrite N.mod_small by exact B. split; [reflexivity |].
  symmetry. apply (N.mod_unique _ _ (n / 500)); [lia |].
  pose proof (N.div_mod n 500). lia.
Qed.

Lemma counter_step_report (n : N) :
  (n mod 500 = 499)%N -> (n + 1 < size_t_modulus)%N ->
  ((n + 1) mod size_t_modulus = n + 1)%N /\
  (((n + 1) mod size_t_modulus) mod 500 = 0)%N.
Proof.
  intros Q B. rewrite N.mod_small by exact B. split; [reflexivity |].
  symmetry. apply (N.mod_unique _ _ (n / 500 + 1)); [lia |].
  pose proof (N.div_mod n 500). lia.
Qed.

(** A run of calls that ends just as the counter reaches the next
    multiple of 500: every call returns its size, the report comes with
    the last call only, and the sizes add up in the timer. *)
Lemma play_all_up_to_report (size : N) (calls : list PlayCall) :
  forall (n : N) (t : Timer),
    calls <> [] ->
    (forall c, In c calls -> chunk_size c = size) ->
    (n mod 500 + N.of_nat (length calls) = 500)%N ->
    (n + N.of_nat (length calls) < size_t_modulus)%N ->
    exists t',
      play_all calls n (mkVisualization (Some t)) =
        Some (repeat (size, false) (length calls - 1) ++ [(size, true)],
              (n + N.of_nat (length calls))%N,
              mkVisualization (Some t')) /\
      cumulativeBytes t' = (cumulativeBytes t + N.of_nat (length calls) * size)%N.
Proof.
  induction calls as [| c rest IH]; intros n t NE Sz Q B; [congruence |].
  assert (Sc : chunk_size c = size) by (apply Sz; left; reflexivity).
  destruct rest as [| c2 rest].
  - cbn [length] in Q, B.
    destruct (counter_step_report n) as (E1 & E2); [lia | lia |].
    cbn [play_all Play ptimer]. rewrite E2, E1, Sc.
    cbn [returned reported num_calls_after object_after length Nat.sub
         repeat app N.eqb].
    eexists. split; [reflexivity |].
    destruct (IsStarted t); cbn [Add Start cumulativeBytes negb length]; lia.
  - assert (L2 : (1 <= N.of_nat (length (c2 :: rest)))%N) by (cbn [length]; lia).
    assert (L : length (c :: c2 :: rest) = S (length (c2 :: rest))) by reflexivity.
    remember (c2 :: rest) as tl eqn:Tl.
    rewrite L in Q, B. rewrite Nat2N.inj_succ in Q, B.
    destruct (counter_step_quiet n) as (E1 & E2); [lia | lia |].
    set (t1 := Add (chunk_size c)
                 (if negb (IsStarted t) then Start (clock c) t else t)).
    destruct (IH (n + 1)%N t1) as (t' & P & Cu).
    + rewrite Tl. discriminate.
    + intros x X. apply Sz. right. exact X.
    + rewrite E1 in E2. lia.
    + lia.
    + exists t'. split.
      * change (play_all (c :: tl) n (mkVisualization (Some t)))
          with (match play_all tl
                        ((n + 1) mod size_t_modulus)%N
                        (mkVisualization (Some t1)) with
                | None => None
                | Some (outs, n0, v') =>
                    Some ((chunk_size c,
                           (((n + 1) mod size_t_modulus) mod 500 =? 0)%N) :: outs,
                          n0, v')
                end).
        rewrite E2, E1, P, Sc.
        replace (n mod 500 + 1 =? 0)%N with false
          by (symmetry; apply N.eqb_neq;
              pose proof (N.le_0_l (n mod 500)); lia).
        assert (A1 : repeat (size, false) (length (c :: tl) - 1) =
                     (size, false) :: repeat (size, false) (length tl - 1)).
        { rewrite L.
          replace (S (length tl) - 1)%nat with (S (length tl - 1)) by lia.
          reflexivity. }
        assert (A2 : (n + N.of_nat (length (c :: tl)) =
                      n + 1 + N.of_nat (length tl))%N) by (rewrite L; lia).
        rewrite A1, A2. reflexivity.
      * rewrite Cu. subst t1. rewrite L, Nat2N.inj_succ, Sc.
        destruct (IsStarted t); cbn [Add Start cumulativeBytes negb]; lia.
Qed.

(** C7, as the code has it.  After [Open], if the static call counter is
    a multiple of 500 (as it is in a new process, where it is 0) and not
    within 500 of wrapping around, then 500 calls of [Play] with size
    1024 each return 1024, log the report on the 500th call and on no
    other, and leave 500 * 1024 accumulated bytes. *)
Theorem Play_500_times_of_1024 (AudioFormat : Type) (audio_format : AudioFormat)
  (num_calls : N) (v : Visualization) :
  (num_calls mod 500 = 0)%N ->
  (num_calls + 500 < size_t_modulus)%N ->
  plays_500_of_1024 num_calls (Open audio_format v).
Proof.
  intros Q B calls Len Sz.
  destruct (@play_all_up_to_report 1024 calls num_calls new_Timer)
    as (t' & P & Cu).
  - intro E. rewrite E in Len. discriminate Len.
  - exact Sz.
  - rewrite Q, Len. reflexivity.
  - rewrite Len. exact B.
  - rewrite Len in P, Cu.
    exists (num_calls + N.of_nat 500)%N, (mkVisualization (Some t')).
    split; [exact P |].
    unfold accumulated. cbn [ptimer option_map]. rewrite Cu. reflexivity.
Qed.

(** In a new process the counter is 0. *)
Lemma Play_500_times_in_new_process :
  plays_500_of_1024 0 (Open tt new_Visualization).
Proof.
  exact (@Play_500_times_of_1024 unit tt 0 new_Visualization eq_refl eq_refl).
Defined.

(** C7 does not hold as stated.  Open, play one block, close, open again:
    the object is as new, but the static counter stands at 1, and of the
    next 500 calls it is the 499th that logs the report, not the 500th. *)
Lemma report_comes_early_after_reopening :
  exists p : Played,
    Play None 1024 0 0 (Open tt new_Visualization) = Some p /\
    Open tt (Close (object_after p)) = Open tt new_Visualization /\
    ~ plays_500_of_1024 (num_calls_after p) (Open tt (Close (object_after p))).
Proof.
  eexists. split; [reflexivity |]. split; [reflexivity |].
  intro H.
  destruct (H (repeat (mkCall None 1024 0) 500)) as (n' & v' & E & _).
  - apply repeat_length.
  - intros c Hc. apply repeat_spec in Hc. rewrite Hc. reflexivity.
  - apply (f_equal (fun r : option (list (N * bool) * N * Visualization) =>
                      match r with
                      | Some (outs, _, _) => nth_error (map snd outs) 498
                      | None => None
                      end)) in E.
    vm_compute in E. discriminate E.
Qed.

(** The chunks of a run have no influence on it. *)
Lemma play_all_ignores_the_chunks (calls1 calls2 : list PlayCall) :
  map (fun c => (chunk_size c, clock c)) calls1 =
  map (fun c => (chunk_size c, clock c)) calls2 ->
  forall (num_calls : N) (v : Visualization),
    play_all calls1 num_calls v = play_all calls2 num_calls v.
Proof.
  revert calls2. induction calls1 as [| c1 r1 IH]; intros [| c2 r2] E n v;
    try discriminate E; [reflexivity |].
  cbn [map] in E. injection E as Es Ec Er.
  cbn [play_all]. unfold Play. rewrite Es, Ec.
  destruct (ptimer v) as [t |]; [| reflexivity].
  cbn [num_calls_after object_after returned reported].
  rewrite (IH r2 Er). reflexivity.
Qed.

(** C10.  [Play] does not look at its chunk: with the same size (and the
    same clock, counter and object) two calls return the same value and
    leave the same timer, the same accumulated bytes and the same
    counter, whatever the two pointers are; the same holds through the
    plugin's [Play], and for whole runs of calls that differ only in
    their chunks. *)
Theorem Play_ignores_the_chunk (d1 d2 : option (list byte))
  (size now num_calls : N) (v : Visualization) :
  Play d1 size now num_calls v = Play d2 size now num_calls v /\
  (forall o : Output.VisualizationOutput,
      Output.Play d1 size now num_calls o = Output.Play d2 size now num_calls o) /\
  (forall p : Played, Play d1 size now num_calls v = Some p -> returned p = size) /\
  (forall calls : list PlayCall,
      play_all (map (fun c => mkCall d1 (chunk_size c) (clock c)) calls)
               num_calls v =
      play_all (map (fun c => mkCall d2 (chunk_size c) (clock c)) calls)
               num_calls v).
Proof.
  split; [reflexivity |]. split; [intro o; reflexivity |]. split.
  - intros p. unfold Play. destruct (ptimer v); [| discriminate].
    intro E. injection E as E. rewrite <- E. reflexivity.
  - intro calls. apply play_all_ignores_the_chunks.
    rewrite !map_map. reflexivity.
Qed.

End Shared.

(** ** Teardown *)

Section Teardown.
Import Output.

Lemma delete_VisualizationClient_closed (c : VisualizationClient) :
  IsClosed (delete_VisualizationClient c) = true.
Proof.
  unfold delete_VisualizationClient. destruct (closed c) eqn:C; cbn [negb].
  - exact C.
  - handlers. destruct (0 <=? socket c)%Z; reflexivity.
Qed.

(** Taking the members down the other way round would leave the server,
    and the clients it owns, with a reference to deleted state. *)
Lemma other_order_dangles (v : Vis.Visualization) (s : VisualizationServer) :
  dangling (fst (reset_pvis (mkOutput (Some v) (Some s)))) = true.
Proof. reflexivity. Qed.

(** C8.  The destructor of the plugin deletes the server, and with it
    every client the server owns (each left closed), before it deletes
    the shared state: the deletions happen in exactly this order, the
    members' own destructors find nothing left to delete, and at no step
    of the teardown is there a server, hence a client, holding a
    reference to shared state that is gone. *)
Theorem server_is_deleted_before_shared_state (v : Vis.Visualization)
  (s : VisualizationServer) :
  let o := mkOutput (Some v) (Some s) in
  let steps := delete_VisualizationOutput o in
  flat_map snd steps =
    [DeletedServer (delete_VisualizationServer s); DeletedVisualization] /\
  map fst steps =
    [mkOutput (Some v) None; mkOutput None None;
     mkOutput None None; mkOutput None None] /\
  dangling o = false /\
  (forall st, In st steps -> dangling (fst st) = false) /\
  length (delete_VisualizationServer s) = length (clients s) /\
  (forall c, In c (delete_VisualizationServer s) -> IsClosed c = true).
Proof.
  cbv zeta. split; [reflexivity |]. split; [reflexivity |].
  split; [reflexivity |]. split; [| split].
  - intros st [E | [E | [E | [E | []]]]]; rewrite <- E; reflexivity.
  - unfold delete_VisualizationServer. apply length_map.
  - intros c Hc. unfold delete_VisualizationServer in Hc.
    apply in_map_iff in Hc. destruct Hc as (x & E & _). rewrite <- E.
    apply delete_VisualizationClient_closed.
Qed.

End Teardown.

(** * Further properties of the code *)

(** ** Admission *)

Section Admission.

Lemma accept_all_app (fds1 fds2 : list Z) (s : VisualizationServer) :
  accept_all (fds1 ++ fds2) s = accept_all fds2 (accept_all fds1 s).
Proof. unfold accept_all. apply fold_left_app. Qed.

(** Once the list is longer than a non-zero ceiling, nobody gets in. *)
Lemma accept_all_full (fds : list Z) (s : VisualizationServer) :
  max_clients s <> 0%N -> (max_clients s < size (clients s))%N ->
  accept_all fds s = s.
Proof.
  intros M L. induction fds as [| fd fds IH]; [reflexivity |].
  unfold accept_all in *. cbn [fold_left].
  destruct (OnAccept_cases fd s) as [(_ & _ & E) | ([E | E] & _)].
  - rewrite E. exact IH.
  - contradiction.
  - lia.
Qed.

Lemma accept_all_bounded (fds : list Z) :
  forall s : VisualizationServer,
    max_clients s <> 0%N ->
    (size (clients s) <= max_clients s + 1)%N ->
    clients (accept_all fds s) =
      clients s ++
      map new_VisualizationClient
        (firstn (N.to_nat (max_clients s + 1) - length (clients s)) fds).
Proof.
  induction fds as [| fd fds IH]; intros s M B.
  - rewrite firstn_nil, app_nil_r. reflexivity.
  - destruct (OnAccept_cases fd s) as [(_ & L & E) | ([E | L] & C & _)].
    + rewrite accept_all_full by assumption.
      unfold size in L, B.
      replace (N.to_nat (max_clients s + 1) - length (clients s))%nat
        with 0%nat by lia.
      rewrite app_nil_r. reflexivity.
    + contradiction.
    + change (accept_all (fd :: fds) s)
        with (accept_all fds (fst (OnAccept fd s))).
      rewrite IH.
      * rewrite OnAccept_max_clients, C, length_app. cbn [length].
        unfold size in L.
        replace (N.to_nat (max_clients s + 1) - length (clients s))%nat
          with (S (N.to_nat (max_clients s + 1) -
                   (length (clients s) + 1)))%nat by lia.
        cbn [firstn map]. rewrite <- app_assoc. reflexivity.
      * rewrite OnAccept_max_clients. exact M.
      * rewrite OnAccept_max_clients, C, size_app_one. lia.
Qed.

Lemma accept_all_max_clients (fds : list Z) :
  forall s : VisualizationServer,
    max_clients (accept_all fds s) = max_clients s.
Proof.
  induction fds as [| fd fds IH]; intro s; [reflexivity |].
  change (accept_all (fd :: fds) s) with (accept_all fds (fst (OnAccept fd s))).
  rewrite IH. apply OnAccept_max_clients.
Qed.

(** X1.  A server with a non-zero [max_clients] that nobody leaves
    admits exactly the first [max_clients + 1] of the clients that
    connect, in their order, and refuses all later ones: its list never
    holds more than [max_clients + 1] clients, and holds that many as soon
    as that many have connected. *)
Theorem bounded_server_admits_ceiling_plus_one (m : N) (fds : list Z) :
  m <> 0%N ->
  let s := accept_all fds (new_VisualizationServer m) in
  clients s = map new_VisualizationClient (firstn (N.to_nat m + 1) fds) /\
  size (clients s) = N.min (N.of_nat (length fds)) (m + 1) /\
  max_clients s = m.
Proof.
  intros M s.
  assert (C : clients s =
              map new_VisualizationClient (firstn (N.to_nat m + 1) fds)).
  { unfold s. rewrite accept_all_bounded.
    - cbn [clients new_VisualizationServer max_clients app length].
      rewrite Nat.sub_0_r, N2Nat.inj_add. reflexivity.
    - exact M.
    - cbn. lia. }
  split; [exact C |]. split.
  - rewrite C. unfold size. rewrite length_map, length_firstn. lia.
  - unfold s. apply accept_all_max_clients.
Qed.

(** With a ceiling of 2, of five clients the first three are in. *)
Lemma three_of_five_admitted :
  let s := accept_all [5; 6; 7; 8; 9]%Z (new_VisualizationServer 2) in
  clients s = map new_VisualizationClient [5; 6; 7]%Z /\
  size (clients s) = 3%N /\
  max_clients s = 2%N.
Proof.
  exact (@bounded_server_admits_ceiling_plus_one 2 [5; 6; 7; 8; 9]%Z
           (fun E : 2%N = 0%N => N.neq_succ_0 1 E)).
Defined.

(** X2.  With [max_clients = 0] nobody is ever refused: however many
    clients are in the list already, every client that connects is
    appended, in order, and the reaper is scheduled 3 seconds ahead as
    soon as one has connected. *)
Theorem unbounded_server_admits_everyone (fds : list Z)
  (s : VisualizationServer) :
  max_clients s = 0%N ->
  clients (accept_all fds s) = clients s ++ map new_VisualizationClient fds /\
  (forall fd, snd (OnAccept fd s) = None) /\
  (fds <> [] -> reaper (accept_all fds s) = Some 3%N).
Proof.
  intro M. split; [| split].
  - revert s M. induction fds as [| fd fds IH]; intros s M.
    + cbn. rewrite app_nil_r. reflexivity.
    + change (accept_all (fd :: fds) s)
        with (accept_all fds (fst (OnAccept fd s))).
      rewrite IH by (rewrite OnAccept_max_clients; exact M).
      unfold OnAccept. rewrite M. cbn. rewrite <- app_assoc. reflexivity.
  - intros fd. unfold OnAccept. rewrite M. reflexivity.
  - destruct fds as [| fd fds] using rev_ind; [congruence | intros _].
    rewrite accept_all_app.
    assert (M' : max_clients (accept_all fds s) = 0%N)
      by (rewrite accept_all_max_clients; exact M).
    unfold accept_all at 1. cbn [fold_left]. unfold OnAccept.
    rewrite M'. reflexivity.
Qed.

Lemma unbounded_server_admits_four :
  let s := accept_all [5; 6; 7; 8]%Z (new_VisualizationServer 0) in
  clients s = map new_VisualizationClient [5; 6; 7; 8]%Z /\
  reaper s = Some 3%N.
Proof.
  pose proof (@unbounded_server_admits_everyone [5; 6; 7; 8]%Z
                (new_VisualizationServer 0) eq_refl) as (C & _ & R).
  exact (conj C (R ltac:(discriminate))).
Defined.

(** ** Reaping *)

Lemma filter_partition (f : VisualizationClient -> bool)
  (l : list VisualizationClient) :
  Permutation l (filter (fun c => negb (f c)) l ++ filter f l).
Proof.
  induction l as [| x l IH]; cbn; [constructor |].
  destruct (f x); cbn.
  - apply Permutation_cons_app, IH.
  - constructor. exact IH.
Qed.

(** X3.  Reaping loses and invents nothing: the clients kept and the
    clients erased are together the clients there were; every client
    kept is open and every client erased is closed; and deleting an
    erased client does nothing more to it, so the reaper itself never
    closes a socket. *)
Theorem reaping_partitions_the_clients (s : VisualizationServer) :
  let kept := clients (fst (ReapClients s)) in
  let erased := snd (ReapClients s) in
  Permutation (clients s) (kept ++ erased) /\
  (length kept + length erased = length (clients s))%nat /\
  Forall (fun c => IsClosed c = false) kept /\
  Forall (fun c => IsClosed c = true) erased /\
  Forall (fun c => delete_VisualizationClient c = c) erased.
Proof.
  cbv zeta. destruct (ReapClients_filters s) as (K & E & _).
  rewrite K, E.
  assert (P : Permutation (clients s)
                (filter (fun c => negb (IsClosed c)) (clients s) ++
                 filter IsClosed (clients s))) by apply filter_partition.
  split; [exact P |]. split.
  - rewrite <- length_app. symmetry. apply Permutation_length, P.
  - repeat split; apply Forall_forall; intros c Hc;
      apply filter_In in Hc; destruct Hc as [_ Hc].
    + apply negb_true_iff, Hc.
    + exact Hc.
    + unfold delete_VisualizationClient. unfold IsClosed in Hc.
      rewrite Hc. reflexivity.
Qed.

(** X4.  Reaping twice is reaping once: a second call right after the
    first erases nothing and keeps the list as it is, and the timer
    stands as the first call left it. *)
Theorem reaping_is_idempotent (s : VisualizationServer) :
  let s1 := fst (ReapClients s) in
  ReapClients s1 = (s1, []).
Proof.
  cbv zeta.
  destruct (ReapClients_filters s) as (K & _ & _).
  pose proof (ReapClients_timer s) as T.
  assert (Fk : filter (fun c => negb (IsClosed c))
                 (clients (fst (ReapClients s))) =
               clients (fst (ReapClients s))).
  { rewrite K. apply forallb_filter_id, forallb_forall.
    intros c Hc. apply filter_In in Hc. apply Hc. }
  assert (Fe : filter IsClosed (clients (fst (ReapClients s))) = []).
  { rewrite K. clear. induction (clients s) as [| c l IH]; [reflexivity |].
    cbn. destruct (IsClosed c) eqn:C; cbn; [exact IH |].
    rewrite C. exact IH. }
  set (s1 := fst (ReapClients s)) in *.
  unfold ReapClients. rewrite reap_filter, Fk, Fe.
  destruct s1 as [m l r]. cbn [clients max_clients reaper] in *.
  destruct l as [| c l]; cbn; [reflexivity |].
  destruct T as [[_ R] | [X _]]; [rewrite R; reflexivity | discriminate X].
Qed.

End Admission.

(** ** Writing and hanging up *)

Section Writing.
Context {F : SocketEventFlags}.

(** X5.  A write that would block costs nothing: the buffer, the wire,
    the flag, the descriptor and the interest in reading are as before,
    and the interest in writing is armed for another try. *)
Theorem would_block_keeps_the_buffer (flags : N) (a : SendAnswer)
  (base : list Callback) (c : VisualizationClient) :
  N.land flags READ = 0%N -> N.land flags WRITE <> 0%N ->
  IsDefined c = true ->
  (nbytes a < 0)%Z ->
  IsSocketErrorSendWouldBlock (GetSocketError a) = true ->
  let c' := OnSocketReady flags a base c in
  buffer c' = buffer c /\ wire c' = wire c /\
  IsClosed c' = IsClosed c /\ socket c' = socket c /\
  released c' = released c /\
  scheduled_read c' = scheduled_read c /\ scheduled_write c' = true.
Proof.
  intros R W D Neg WB. cbv zeta.
  rewrite OnSocketReady_would_block by assumption.
  handlers. repeat split.
Qed.

(** X6.  Whatever non-negative count the kernel reports for a write on
    an open connection, the method empties the buffer and drops its
    interest in writing: the bytes beyond the count reach neither the
    wire nor the next write.  Nothing is lost exactly when the count
    covers the buffer. *)
Theorem write_keeps_only_what_the_kernel_took (flags : N) (a : SendAnswer)
  (base : list Callback) (c : VisualizationClient) :
  N.land flags READ = 0%N -> N.land flags WRITE <> 0%N ->
  IsDefined c = true ->
  (0 <= nbytes a)%Z ->
  let n := Z.to_nat (nbytes a) in
  let c' := OnSocketReady flags a base c in
  buffer c' = [] /\ scheduled_write c' = false /\
  IsClosed c' = IsClosed c /\
  wire c' ++ skipn n (buffer c) = wire c ++ buffer c /\
  (wire c' = wire c ++ buffer c <-> (length (buffer c) <= n)%nat).
Proof.
  intros R W D Pos n c'.
  destruct (OnSocketReady_wrote flags a base c R W D Pos)
    as (B & S & Wr & C & _).
  fold c' in B, S, Wr, C. fold n in Wr.
  split; [exact B |]. split; [exact S |]. split; [exact C |]. split.
  - rewrite Wr, <- app_assoc, firstn_skipn. reflexivity.
  - rewrite Wr. split.
    + intro E. apply app_inv_head in E.
      apply (f_equal (@length byte)) in E. rewrite length_firstn in E. lia.
    + intro L. rewrite firstn_all2 by exact L. reflexivity.
Qed.

(** X7.  Writing comes before hanging up.  When an event carries both
    [WRITE] and [HANGUP] (and not [READ]), the method only writes: unless
    that write fails with something else than "would block", the
    connection is still open afterwards, on the same descriptor, with
    nothing released. *)
Theorem write_comes_before_hangup (flags : N) (a : SendAnswer)
  (base : list Callback) (c : VisualizationClient) :
  N.land flags READ = 0%N -> N.land flags WRITE <> 0%N ->
  N.land flags HANGUP <> 0%N ->
  IsDefined c = true -> IsClosed c = false ->
  (0 <= nbytes a)%Z \/ IsSocketErrorSendWouldBlock (GetSocketError a) = true ->
  let c' := OnSocketReady flags a base c in
  IsClosed c' = false /\ socket c' = socket c /\ released c' = released c.
Proof.
  intros R W _ D C Ok. cbv zeta.
  destruct (Z.ltb_spec (nbytes a) 0) as [Neg | Pos].
  - destruct Ok as [Pos | WB]; [lia |].
    rewrite OnSocketReady_would_block by assumption.
    handlers. repeat split. exact C.
  - destruct (OnSocketReady_wrote flags a base c R W D Pos)
      as (_ & _ & _ & Ec & Es & Er).
    unfold IsClosed in *. rewrite Ec, Es, Er. repeat split. exact C.
Qed.

End Writing.

(** On "ping": the write would block. *)
Lemma would_block_on_ping :
  let c' := OnSocketReady (F := epoll) 4 (Sample.failed Sample.EAGAIN) []
              Sample.pinged in
  buffer c' = Sample.ping /\ wire c' = [] /\
  IsClosed c' = false /\ socket c' = 5%Z /\
  released c' = [] /\
  scheduled_read c' = true /\ scheduled_write c' = true.
Proof.
  exact (@would_block_keeps_the_buffer epoll 4 (Sample.failed Sample.EAGAIN) []
           Sample.pinged eq_refl (fun E : 4%N = 0%N => N.neq_succ_0 3 E)
           eq_refl eq_refl eq_refl).
Defined.

(** On "ping": the kernel takes three bytes, the "g" is gone. *)
Lemma three_of_ping_taken :
  let c' := OnSocketReady (F := epoll) 4 (Sample.took 3) [] Sample.pinged in
  buffer c' = [] /\ scheduled_write c' = false /\
  IsClosed c' = false /\
  wire c' ++ [x67] = Sample.ping /\
  (wire c' = Sample.ping <-> (4 <= 3)%nat).
Proof.
  exact (@write_keeps_only_what_the_kernel_took epoll 4 (Sample.took 3) []
           Sample.pinged eq_refl (fun E : 4%N = 0%N => N.neq_succ_0 3 E)
           eq_refl (proj1 (Z.leb_le 0 3) eq_refl)).
Defined.

(** On "ping": writable and hung up at once, and the write goes through. *)
Lemma hangup_waits_for_the_write :
  let c' := OnSocketReady (F := epoll) 20 (Sample.took 4) [] Sample.pinged in
  IsClosed c' = false /\ socket c' = 5%Z /\ released c' = [].
Proof.
  exact (@write_comes_before_hangup epoll 20 (Sample.took 4) [] Sample.pinged
           eq_refl (fun E : 4%N = 0%N => N.neq_succ_0 3 E)
           (fun E : 16%N = 0%N => N.neq_succ_0 15 E)
           eq_refl eq_refl (or_introl (proj1 (Z.leb_le 0 4) eq_refl))).
Defined.

(** ** A whole session *)

Section Stream.
Context {F : SocketEventFlags}.
Import Session.

Lemma callback_stream (cb : Callback) (c : VisualizationClient) :
  wire (callback cb c) = wire c /\
  buffer (callback cb c) = buffer c ++ input_of_callback cb.
Proof.
  destruct cb; cbn [callback input_of_callback]; handlers;
    try rewrite app_nil_r; try destruct (0 <=? socket c)%Z; split; reflexivity.
Qed.

Lemma callbacks_stream (base : list Callback) :
  forall c : VisualizationClient,
    wire (BufferedSocket_OnSocketReady base c) = wire c /\
    buffer (BufferedSocket_OnSocketReady base c) =
      buffer c ++ flat_map input_of_callback base.
Proof.
  unfold BufferedSocket_OnSocketReady.
  induction base as [| cb cbs IH]; intro c; cbn [fold_left flat_map].
  - rewrite app_nil_r. split; reflexivity.
  - destruct (IH (callback cb c)) as (W & B).
    destruct (callback_stream cb c) as (W1 & B1).
    rewrite W, B, W1, B1, app_assoc. split; reflexivity.
Qed.

(** One event either leaves the wire alone and appends its input to the
    buffer, or moves a prefix of the buffer to the wire and empties the
    buffer. *)
Lemma deliver_stream (ev : Event) (c : VisualizationClient) :
  (wire (deliver ev c) = wire c /\
   buffer (deliver ev c) = buffer c ++ input_of ev) \/
  (exists k : nat,
      wire (deliver ev c) = wire c ++ firstn k (buffer c) /\
      buffer (deliver ev c) = [] /\ input_of ev = [] /\
      (short_write ev c = false -> firstn k (buffer c) = buffer c)).
Proof.
  destruct ev as [flags a base | cb]; cbn [deliver input_of];
    [| left; apply callback_stream].
  destruct (flags_cases flags) as [R | [(R & W) | [(R & W & H) | (R & W & H)]]].
  - left. rewrite OnSocketReady_read by assumption.
    destruct (N.eqb_spec (N.land flags READ) 0); [contradiction |].
    cbn [negb]. apply callbacks_stream.
  - rewrite R. cbn [N.eqb negb].
    destruct (IsDefined c) eqn:D.
    + destruct (Z.ltb_spec (nbytes a) 0) as [Neg | Pos].
      * left. destruct (IsSocketErrorSendWouldBlock (GetSocketError a)) eqn:WB.
        -- rewrite OnSocketReady_would_block by assumption.
           handlers. rewrite app_nil_r. split; reflexivity.
        -- rewrite OnSocketReady_write_error by assumption.
           handlers. rewrite D. cbn. rewrite app_nil_r. split; reflexivity.
      * right. exists (Z.to_nat (nbytes a)).
        destruct (OnSocketReady_wrote flags a base c R W D Pos)
          as (B & _ & Wr & _).
        split; [exact Wr |]. split; [exact B |]. split; [reflexivity |].
        unfold short_write. rewrite R, D.
        destruct (N.eqb_spec (N.land flags WRITE) 0); [contradiction |].
        apply Z.leb_le in Pos. rewrite Pos. cbn.
        intro L. apply Z.ltb_ge in L. apply firstn_all2. lia.
    + left. rewrite OnSocketReady_write_released by assumption.
      handlers. rewrite app_nil_r. split; reflexivity.
  - left. rewrite R. cbn [N.eqb negb].
    rewrite OnSocketReady_hangup by assumption.
    handlers. rewrite app_nil_r. destruct (0 <=? socket c)%Z; split; reflexivity.
  - left. rewrite R. cbn [N.eqb negb].
    rewrite OnSocketReady_other by assumption.
    rewrite app_nil_r. split; reflexivity.
Qed.

(** X8.  The echo over a whole session.  Through any events (input in
    any number of chunks, writes that succeed, block or fail, hangups),
    as long as no write is cut short by the kernel, what is on the wire
    followed by what waits in the buffer is exactly what was there at the
    start followed by everything received since, in order: nothing is
    lost, doubled or reordered. *)
Theorem session_echoes_what_it_received (evs : list Event) :
  forall c : VisualizationClient,
    no_short_write evs c = true ->
    wire (run evs c) ++ buffer (run evs c) =
    wire c ++ buffer c ++ received evs.
Proof.
  induction evs as [| ev evs IH]; intros c N.
  - cbn. rewrite app_nil_r. reflexivity.
  - cbn [no_short_write] in N. apply andb_true_iff in N.
    destruct N as [S N]. apply negb_true_iff in S.
    change (run (ev :: evs) c) with (run evs (deliver ev c)).
    rewrite (IH _ N). unfold received. cbn [flat_map].
    destruct (deliver_stream ev c) as [(W & B) | (k & W & B & I & Full)].
    + rewrite W, B, <- !app_assoc. reflexivity.
    + rewrite W, B, I, (Full S). cbn [app]. rewrite <- app_assoc. reflexivity.
Qed.

(** X9.  What a connection sends it has received: through any events at
    all, the wire only grows at its end, and the bytes added to it
    together with the bytes still buffered are never more than the bytes
    that were buffered at the start plus the bytes received since. *)
Theorem session_sends_no_more_than_received (evs : list Event) :
  forall c : VisualizationClient,
    exists sent : list byte,
      wire (run evs c) = wire c ++ sent /\
      (length sent + length (buffer (run evs c)) <=
       length (buffer c) + length (received evs))%nat.
Proof.
  induction evs as [| ev evs IH]; intro c.
  - exists []. cbn. rewrite app_nil_r. split; [reflexivity | lia].
  - change (run (ev :: evs) c) with (run evs (deliver ev c)).
    destruct (IH (deliver ev c)) as (sent & W & L).
    unfold received in *. cbn [flat_map]. rewrite length_app.
    destruct (deliver_stream ev c) as [(W1 & B1) | (k & W1 & B1 & I & _)].
    + exists sent. rewrite W, W1. split; [reflexivity |].
      rewrite B1, length_app in L. lia.
    + exists (firstn k (buffer c) ++ sent).
      rewrite W, W1, <- app_assoc. split; [reflexivity |].
      rewrite B1 in L. cbn [length] in L.
      rewrite length_app, length_firstn. lia.
Qed.

(** X10.  The flag and the descriptor go together.  For a connection
    made on a valid descriptor, after any events: [IsClosed()] is true
    exactly when the descriptor has been released; while it is false the
    connection still holds the very descriptor it was made on; and the
    descriptors it has released are none, or that one, once. *)
Theorem flag_tells_whether_descriptor_is_held (fd : Z) (evs : list Event) :
  (0 <= fd)%Z ->
  let c := run evs (new_VisualizationClient fd) in
  IsClosed c = negb (IsDefined c) /\
  (IsClosed c = false -> socket c = fd /\ released c = []) /\
  (IsClosed c = true -> released c = [fd]).
Proof.
  intros V c.
  assert (L : lifecycle fd c)
    by (apply run_lifecycle; [exact V | apply new_lifecycle]).
  unfold IsClosed, IsDefined.
  destruct L as [(C & S & R) | (C & S & R)]; rewrite C, S.
  - apply Z.leb_le in V. rewrite V.
    split; [reflexivity |].
    split; [intros _; split; [reflexivity | exact R] | intro X; discriminate X].
  - split; [reflexivity |].
    split; [intro X; discriminate X | intros _; exact R].
Qed.

End Stream.

(** "ping" twice with a would-block in between and complete writes. *)
Lemma echo_of_two_pings :
  let evs := [Call (CbInput Sample.ping);
              Ready 4 (Sample.failed Sample.EAGAIN) [];
              Ready 1 (Sample.took 0) [CbInput Sample.ping];
              Ready 4 (Sample.took 8) []] in
  let c := run (F := epoll) evs (new_VisualizationClient 5) in
  wire c ++ buffer c = Sample.ping ++ Sample.ping.
Proof.
  exact (@session_echoes_what_it_received epoll
           [Call (CbInput Sample.ping);
            Ready 4 (Sample.failed Sample.EAGAIN) [];
            Ready 1 (Sample.took 0) [CbInput Sample.ping];
            Ready 4 (Sample.took 8) []]
           (new_VisualizationClient 5) eq_refl).
Defined.

(** Descriptor 5 through input, a complete write and a hangup. *)
Lemma flag_and_descriptor_after_hangup :
  let c := run (F := epoll)
             [Call (CbInput Sample.ping); Ready 4 (Sample.took 4) [];
              Ready 16 (Sample.took 0) []]
             (new_VisualizationClient 5) in
  IsClosed c = negb (IsDefined c) /\
  (IsClosed c = false -> socket c = 5%Z /\ released c = []) /\
  (IsClosed c = true -> released c = [5%Z]).
Proof.
  exact (@flag_tells_whether_descriptor_is_held epoll 5
           [Call (CbInput Sample.ping); Ready 4 (Sample.took 4) [];
            Ready 16 (Sample.took 0) []]
           (proj1 (Z.leb_le 0 5) eq_refl)).
Defined.

(** ** Playing *)

Section Playing.
Import Vis.

Lemma quotient_step (n : N) :
  ((n + 1) / 500 =
   n / 500 + (if (n + 1) mod 500 =? 0 then 1 else 0))%N.
Proof.
  pose proof (N.div_mod n 500 ltac:(discriminate)) as E1.
  pose proof (N.div_mod (n + 1) 500 ltac:(discriminate)) as E2.
  pose proof (N.mod_lt n 500 ltac:(discriminate)) as B1.
  pose proof (N.mod_lt (n + 1) 500 ltac:(discriminate)) as B2.
  destruct (N.eqb_spec ((n + 1) mod 500) 0) as [Z | NZ]; cbv iota;
    revert E1 E2 B1 B2; try revert Z; try revert NZ;
    generalize ((n + 1) / 500)%N, (n / 500)%N,
               ((n + 1) mod 500)%N, (n mod 500)%N;
    intros; lia.
Qed.

(** X11.  The report is a matter of the process-wide counter alone.  On
    an opened object, a run of calls that does not wrap the counter is
    defined, returns to each call its size, advances the counter by one
    per call, and logs the report on exactly those calls that bring the
    counter to a multiple of 500; so the number of reports in the run is
    the number of multiples of 500 the counter passes. *)
Theorem report_follows_the_static_counter (calls : list PlayCall) :
  forall (n : N) (t : Timer),
    (n + N.of_nat (length calls) < size_t_modulus)%N ->
    exists outs v',
      play_all calls n (mkVisualization (Some t)) =
        Some (outs, (n + N.of_nat (length calls))%N, v') /\
      map fst outs = map chunk_size calls /\
      map snd outs =
        map (fun i => ((n + N.of_nat i + 1) mod 500 =? 0)%N)
            (seq 0 (length calls)) /\
      N.of_nat (length (filter snd outs)) =
        ((n + N.of_nat (length calls)) / 500 - n / 500)%N /\
      ptimer v' <> None.
Proof.
  induction calls as [| c rest IH]; intros n t B.
  - exists [], (mkVisualization (Some t)). cbn [play_all length map seq filter].
    rewrite N.add_0_r, N.sub_diag. repeat split. discriminate.
  - cbn [length] in B. rewrite Nat2N.inj_succ in B.
    assert (W : ((n + 1) mod size_t_modulus = n + 1)%N)
      by (apply N.mod_small; lia).
    set (t1 := Add (chunk_size c)
                 (if negb (IsStarted t) then Start (clock c) t else t)).
    destruct (IH (n + 1)%N t1) as (outs & v' & P & Fs & Sn & Cn & Pt); [lia |].
    exists ((chunk_size c, ((n + 1) mod 500 =? 0)%N) :: outs), v'.
    split; [| split; [| split; [| split]]].
    + change (play_all (c :: rest) n (mkVisualization (Some t)))
        with (match play_all rest ((n + 1) mod size_t_modulus)%N
                      (mkVisualization (Some t1)) with
              | None => None
              | Some (outs, n0, v') =>
                  Some ((chunk_size c,
                         (((n + 1) mod size_t_modulus) mod 500 =? 0)%N) :: outs,
                        n0, v')
              end).
      rewrite W, P. cbn [length]. rewrite Nat2N.inj_succ.
      replace (n + 1 + N.of_nat (length rest))%N
        with (n + N.succ (N.of_nat (length rest)))%N by lia.
      reflexivity.
    + cbn [map fst]. rewrite Fs. reflexivity.
    + cbn [map snd length seq]. rewrite N.add_0_r. f_equal.
      rewrite Sn, <- seq_shift, map_map. apply map_ext. intro i.
      rewrite Nat2N.inj_succ.
      replace (n + N.succ (N.of_nat i) + 1)%N with (n + 1 + N.of_nat i + 1)%N
        by lia.
      reflexivity.
    + cbn [length]. rewrite Nat2N.inj_succ.
      replace (n + N.succ (N.of_nat (length rest)))%N
        with (n + 1 + N.of_nat (length rest))%N by lia.
      assert (Mono : ((n + 1) / 500 <= (n + 1 + N.of_nat (length rest)) / 500)%N)
        by (apply N.Div0.div_le_mono; lia).
      pose proof (quotient_step n) as Q.
      cbn [filter snd].
      destruct ((n + 1) mod 500 =? 0)%N; cbn [length];
        try rewrite Nat2N.inj_succ; revert Cn Mono Q;
        generalize ((n + 1 + N.of_nat (length rest)) / 500)%N,
                   ((n + 1) / 500)%N, (n / 500)%N;
        intros; lia.
    + exact Pt.
Qed.

Lemma play_all_opened (calls : list PlayCall) :
  forall (n : N) (t : Timer),
    play_all calls n (mkVisualization (Some t)) <> None.
Proof.
  induction calls as [| c rest IH]; intros n t; [discriminate |].
  cbn [play_all Play ptimer num_calls_after object_after].
  match goal with
  | |- context [play_all rest ?m (mkVisualization (Some ?u))] =>
      specialize (IH m u);
      destruct (play_all rest m (mkVisualization (Some u))) as [[[o k] v] |]
  end; [discriminate | contradiction].
Qed.

(** X12.  [Play] needs [Open] first.  A run of calls has no defined
    result exactly when it is not empty and the object has no timer;
    so every run on the plugin after its [Open] is defined, whatever the
    counter, and every call after its [Close], or before the first
    [Open], dereferences the empty [ptimer]. *)
Theorem Play_is_defined_between_Open_and_Close :
  (forall (calls : list PlayCall) (n : N) (v : Visualization),
      play_all calls n v = None <-> calls <> [] /\ ptimer v = None) /\
  (forall (AudioFormat : Type) (af : AudioFormat) (o o' : Output.VisualizationOutput)
          (d : option (list byte)) (size now n : N),
      Output.Open af o = Some o' -> Output.Play d size now n o' <> None) /\
  (forall (o o' : Output.VisualizationOutput)
          (d : option (list byte)) (size now n : N),
      Output.Close o = Some o' -> Output.Play d size now n o' = None) /\
  (forall (m : N) (d : option (list byte)) (size now n : N),
      Output.Play d size now n (Output.new_VisualizationOutput m) = None).
Proof.
  split; [| split; [| split]].
  - intros calls n [[t |]]; split.
    + intro E. exfalso. exact (play_all_opened calls n t E).
    + intros [_ X]. discriminate X.
    + intro E. split; [| reflexivity].
      intro X. rewrite X in E. discriminate E.
    + intros [NE _]. destruct calls as [| c rest]; [congruence | reflexivity].
  - intros AF af o o' d size now n E. unfold Output.Open in E.
    destruct (Output.pvis o); [| discriminate E].
    injection E as E. rewrite <- E. discriminate.
  - intros o o' d size now n E. unfold Output.Close in E.
    destruct (Output.pvis o); [| discriminate E].
    injection E as E. rewrite <- E. reflexivity.
  - reflexivity.
Qed.

End Playing.

(** Seven hundred calls from a counter at 400: reports at 500 and 1000. *)
Lemma two_reports_in_700_calls :
  exists outs v',
    Vis.play_all (repeat (Vis.mkCall None 1024 0) 700) 400
      (Vis.mkVisualization (Some Vis.new_Timer)) =
      Some (outs, 1100%N, v') /\
    N.of_nat (length (filter snd outs)) = 2%N.
Proof.
  destruct (@report_follows_the_static_counter
              (repeat (Vis.mkCall None 1024 0) 700) 400 Vis.new_Timer eq_refl)
    as (outs & v' & P & _ & _ & Cn & _).
  exists outs, v'. split; [exact P | exact Cn].
Defined.

(** ** The server over time *)

Section Accounting.
Context {F : SocketEventFlags}.
Import Loop.

Lemma deliver_made_on (fd : Z) (ev : Event) (c : VisualizationClient) :
  made_on fd c -> made_on fd (deliver ev c).
Proof.
  intros [V L]. split; [exact V |].
  destruct ev as [flags a base | cb]; cbn [deliver].
  - apply OnSocketReady_lifecycle; assumption.
  - apply callback_lifecycle; assumption.
Qed.

Lemma dispatch_at_made_on (i : nat) (ev : Event) (fds : list Z)
  (l : list VisualizationClient) :
  Forall2 made_on fds l -> Forall2 made_on fds (dispatch_at i ev l).
Proof.
  intro H. revert i. induction H as [| fd c fds l M H IH]; intro i.
  - destruct i; constructor.
  - destruct i as [| j]; cbn [dispatch_at]; constructor; auto.
    apply deliver_made_on, M.
Qed.

Lemma made_on_holds (fd : Z) (c : VisualizationClient) :
  made_on fd c ->
  (held c = [fd] /\ released c = []) \/ (held c = [] /\ released c = [fd]).
Proof.
  intros [V [(C & S & R) | (C & S & R)]]; unfold held, IsDefined; rewrite S.
  - left. apply Z.leb_le in V. rewrite V. split; [reflexivity | exact R].
  - right. split; [reflexivity | exact R].
Qed.

Lemma made_on_deleted (fd : Z) (c : VisualizationClient) :
  made_on fd c ->
  released_at_deletion c = [fd] /\
  IsClosed (delete_VisualizationClient c) = true /\
  IsDefined (delete_VisualizationClient c) = false.
Proof.
  intros [V L]. unfold released_at_deletion.
  assert (D : dead fd (delete_VisualizationClient c)).
  { unfold delete_VisualizationClient. destruct (closed c) eqn:C; cbn [negb].
    - destruct L as [(C' & _) | D]; [congruence | exact D].
    - destruct (@Close_dead fd c (set_closed true c) V L
                  eq_refl eq_refl eq_refl) as (_ & S & R).
      revert S R. handlers. destruct (0 <=? socket c)%Z; cbn;
        intros S R; repeat split; assumption. }
  destruct D as (C & S & R). unfold IsClosed, IsDefined. rewrite S.
  repeat split; assumption.
Qed.

Lemma made_on_all_held (fds : list Z) (l : list VisualizationClient) :
  Forall2 made_on fds l ->
  Permutation fds (flat_map held l ++ flat_map released l).
Proof.
  induction 1 as [| fd c fds l M H IH]; cbn [flat_map]; [constructor |].
  destruct (made_on_holds M) as [(Hd & Rl) | (Hd & Rl)]; rewrite Hd, Rl; cbn [app].
  - constructor. exact IH.
  - apply Permutation_cons_app, IH.
Qed.

Lemma made_on_all_deleted (fds : list Z) (l : list VisualizationClient) :
  Forall2 made_on fds l -> flat_map released_at_deletion l = fds.
Proof.
  induction 1 as [| fd c fds l M H IH]; cbn [flat_map]; [reflexivity |].
  destruct (made_on_deleted M) as (R & _). rewrite R, IH. reflexivity.
Qed.

Lemma made_on_reaped (fds : list Z) (l : list VisualizationClient) :
  Forall2 made_on fds l ->
  exists fk fe : list Z,
    Forall2 made_on fk (filter (fun c => negb (IsClosed c)) l) /\
    Forall2 made_on fe (filter IsClosed l) /\
    Permutation fds (fk ++ fe).
Proof.
  induction 1 as [| fd c fds l M H (fk & fe & Hk & He & P)]; cbn [filter].
  - exists [], []. repeat split; constructor.
  - destruct (IsClosed c); cbn [negb].
    + exists fk, (fd :: fe). repeat split; [assumption | constructor; assumption |].
      apply Permutation_cons_app, P.
    + exists (fd :: fk), fe. repeat split; [constructor; assumption | assumption |].
      cbn [app]. constructor. exact P.
Qed.

Lemma reaping_accounts (acc : list Z) (s : VisualizationServer) (closed : list Z) :
  accounts acc (mkWorld s closed) ->
  accounts acc
    (mkWorld (fst (ReapClients s))
       (flat_map released_at_deletion (snd (ReapClients s)) ++ closed)).
Proof.
  intros (fds & A & P). cbn [server closed_fds] in *.
  destruct (ReapClients_filters s) as (K & E & _).
  destruct (made_on_reaped A) as (fk & fe & Hk & He & Pk).
  exists fk. cbn [server closed_fds]. rewrite K, E. split; [exact Hk |].
  rewrite (made_on_all_deleted He).
  rewrite P. rewrite app_assoc. apply Permutation_app_tail, Pk.
Qed.

Lemma step_accounts (st : Step) (acc : list Z) (w : World) :
  Forall (fun fd => (0 <= fd)%Z) (accepted [st]) ->
  accounts acc w -> accounts (acc ++ accepted [st]) (step st w).
Proof.
  intros V A. destruct st as [fd | i ev | |]; cbn [accepted flat_map app] in *;
    try rewrite app_nil_r.
  - apply Forall_inv in V. destruct A as (fds & A & P).
    cbn [step].
    destruct (OnAccept_cases fd (server w)) as [(_ & _ & E) | (_ & C & N)].
    + rewrite E. exists fds. cbn [server closed_fds]. split; [exact A |].
      rewrite Permutation_app_comm. cbn [app].
      apply Permutation_cons_app, P.
    + destruct (OnAccept fd (server w)) as [s r]. cbn [fst snd] in C, N.
      rewrite N. exists (fds ++ [fd]). cbn [server closed_fds]. rewrite C. split.
      * apply Forall2_app; [exact A |]. constructor; [| constructor].
        split; [exact V | apply new_lifecycle].
      * rewrite P, <- !app_assoc. apply Permutation_app_head.
        apply Permutation_app_comm.
  - destruct A as (fds & A & P). exists fds. cbn [step server closed_fds clients dispatch].
    split; [apply dispatch_at_made_on, A | exact P].
  - cbn [step]. destruct w as [s closed].
    pose proof (reaping_accounts A) as R. cbn [server closed_fds].
    destruct (ReapClients s) as [s' erased]. exact R.
  - cbn [step]. destruct w as [s closed]. cbn [server closed_fds].
    assert (A' : accounts acc (mkWorld (expire s) closed)).
    { destruct A as (fds & A & P). exists fds. split; assumption. }
    pose proof (reaping_accounts A') as R.
    destruct (ReapClients (expire s)) as [s' erased]. exact R.
Qed.

Lemma run_accounts (sts : list Step) :
  forall (acc : list Z) (w : World),
    Forall (fun fd => (0 <= fd)%Z) (accepted sts) ->
    accounts acc w -> accounts (acc ++ accepted sts) (run sts w).
Proof.
  induction sts as [| st sts IH]; intros acc w V A.
  - cbn. rewrite app_nil_r. exact A.
  - assert (E : accepted (st :: sts) = accepted [st] ++ accepted sts)
      by (unfold accepted; cbn [flat_map]; rewrite app_nil_r; reflexivity).
    rewrite E in *.
    apply Forall_app in V. destruct V as [V1 V2].
    change (run (st :: sts) w) with (run sts (step st w)).
    rewrite app_assoc. apply IH; [exact V2 |].
    apply step_accounts; assumption.
Qed.

Lemma new_World_accounts (m : N) : accounts [] (new_World m).
Proof. exists []. split; constructor. Qed.

(** X13.  No descriptor is lost and none is closed twice.  Let clients
    connect on valid descriptors, events of any kind reach any client,
    and the reaper run at any time: every descriptor that connected is
    then accounted for exactly once, as the open descriptor of a client
    in the list, as the released descriptor of a closed client still in
    the list, or as a descriptor closed for a connection that was refused
    or a client that was deleted. *)
Theorem every_descriptor_is_accounted_for (m : N) (sts : list Step) :
  Forall (fun fd => (0 <= fd)%Z) (accepted sts) ->
  let w := run sts (new_World m) in
  Permutation (accepted sts)
    (open_fds (server w) ++ released_fds (server w) ++ closed_fds w).
Proof.
  intros V w.
  destruct (run_accounts sts V (new_World_accounts m)) as (fds & A & P).
  cbn [app] in P. fold w in A, P.
  rewrite P, app_assoc. apply Permutation_app_tail.
  apply made_on_all_held, A.
Qed.

(** X14.  Shutting the server down after any such history leaves every
    client closed with its descriptor released, and by then every
    descriptor that ever connected has been closed exactly once. *)
Theorem shutdown_closes_every_descriptor_once (m : N) (sts : list Step) :
  Forall (fun fd => (0 <= fd)%Z) (accepted sts) ->
  let w := run sts (new_World m) in
  Permutation (accepted sts) (shutdown w) /\
  Forall (fun c => IsClosed c = true /\ IsDefined c = false)
         (delete_VisualizationServer (server w)).
Proof.
  intros V w.
  destruct (run_accounts sts V (new_World_accounts m)) as (fds & A & P).
  cbn [app] in P. fold w in A, P. split.
  - unfold shutdown, delete_VisualizationServer. rewrite flat_map_concat_map, map_map.
    rewrite <- flat_map_concat_map.
    change (flat_map (fun x => released (delete_VisualizationClient x))
              (clients (server w)))
      with (flat_map released_at_deletion (clients (server w))).
    rewrite (made_on_all_deleted A). exact P.
  - unfold delete_VisualizationServer. apply Forall_map.
    clear P. induction A as [| fd c fds l M A IH]; constructor; [| exact IH].
    destruct (made_on_deleted M) as (_ & C & D). split; assumption.
Qed.

Lemma ReapClients_shrinks (s : VisualizationServer) :
  (size (clients (fst (ReapClients s))) <= size (clients s))%N.
Proof.
  destruct (ReapClients_filters s) as (K & _ & _). rewrite K. unfold size.
  pose proof (filter_length_le (fun c => negb (IsClosed c)) (clients s)). lia.
Qed.

Lemma step_ceiling (st : Step) (w : World) :
  max_clients (server (step st w)) = max_clients (server w) /\
  (max_clients (server w) <> 0%N ->
   (size (clients (server w)) <= max_clients (server w) + 1)%N ->
   (size (clients (server (step st w))) <= max_clients (server w) + 1)%N).
Proof.
  destruct st as [fd | i ev | |]; cbn [step].
  - pose proof (OnAccept_max_clients fd (server w)) as M.
    pose proof (OnAccept_bound fd (server w)) as B.
    destruct (OnAccept fd (server w)) as [s r]. cbn [server fst] in *.
    split; assumption.
  - cbn [server dispatch max_clients clients]. split; [reflexivity |].
    intros _ B. unfold size in *. rewrite dispatch_at_length. exact B.
  - destruct (ReapClients_filters (server w)) as (_ & _ & M).
    pose proof (ReapClients_shrinks (server w)) as Sh.
    destruct (ReapClients (server w)) as [s e]. cbn [server fst] in *.
    split; [exact M |]. intros _ B. lia.
  - destruct (ReapClients_filters (expire (server w))) as (_ & _ & M).
    pose proof (ReapClients_shrinks (expire (server w))) as Sh.
    destruct (ReapClients (expire (server w))) as [s e].
    cbn [server fst expire max_clients clients] in *.
    split; [exact M |]. intros _ B. lia.
Qed.

(** X15.  The ceiling over time.  Whatever happens to a server made
    with a non-zero [max_clients] (clients connecting, events, reaping),
    [max_clients] stays as configured and the list never holds more than
    [max_clients + 1] clients. *)
Theorem list_stays_within_ceiling_plus_one (m : N) (sts : list Step) :
  m <> 0%N ->
  let s := server (run sts (new_World m)) in
  max_clients s = m /\ (size (clients s) <= m + 1)%N.
Proof.
  intros M.
  assert (G : forall w : World,
             max_clients (server w) = m ->
             (size (clients (server w)) <= m + 1)%N ->
             max_clients (server (run sts w)) = m /\
             (size (clients (server (run sts w))) <= m + 1)%N).
  { induction sts as [| st sts IH]; intros w E B; [split; assumption |].
    change (run (st :: sts) w) with (run sts (step st w)).
    destruct (step_ceiling st w) as (E1 & B1).
    apply IH; [congruence |]. rewrite E in B1. apply B1; assumption. }
  apply G; [reflexivity | cbn; lia].
Qed.

Lemma step_timer (st : Step) (w : World) :
  (clients (server w) <> [] -> reaper (server w) = Some 3%N) ->
  clients (server (step st w)) <> [] -> reaper (server (step st w)) = Some 3%N.
Proof.
  intro T. destruct st as [fd | i ev | |]; cbn [step].
  - destruct (OnAccept_cases fd (server w)) as [(_ & _ & E) | (_ & _ & N)].
    + rewrite E. exact T.
    + unfold OnAccept in *.
      destruct (negb (max_clients (server w) =? 0)%N &&
                (max_clients (server w) <? size (clients (server w)))%N);
        [discriminate N | reflexivity].
  - cbn [server dispatch clients reaper]. intro NE. apply T.
    intro E. rewrite E in NE. destruct i; exact (NE eq_refl).
  - pose proof (ReapClients_timer (server w)) as R.
    destruct (ReapClients (server w)) as [s e]. cbn [server fst] in *.
    intro NE. destruct R as [[_ R] | [E _]]; [exact R | contradiction].
  - pose proof (ReapClients_timer (expire (server w))) as R.
    destruct (ReapClients (expire (server w))) as [s e]. cbn [server fst] in *.
    intro NE. destruct R as [[_ R] | [E _]]; [exact R | contradiction].
Qed.

Lemma run_timer (sts : list Step) :
  forall w : World,
    (clients (server w) <> [] -> reaper (server w) = Some 3%N) ->
    clients (server (run sts w)) <> [] ->
    reaper (server (run sts w)) = Some 3%N.
Proof.
  induction sts as [| st sts IH]; intros w T; [exact T |].
  change (run (st :: sts) w) with (run sts (step st w)).
  apply IH, step_timer, T.
Qed.

(** X16.  The reaper runs while there are clients, and only then.
    After any history of a new server, as long as the list is not empty
    the timer is scheduled, 3 seconds ahead; and when the timer fires and
    leaves the list empty, it is not scheduled again. *)
Theorem reaper_is_scheduled_while_clients_remain (m : N) (sts : list Step) :
  (let s := server (run sts (new_World m)) in
   clients s <> [] -> reaper s = Some 3%N) /\
  (let s := server (run (sts ++ [Fire]) (new_World m)) in
   clients s = [] -> reaper s = None).
Proof.
  split; cbv zeta.
  - apply run_timer. intro NE. exfalso. apply NE. reflexivity.
  - unfold run. rewrite fold_left_app. cbn [fold_left step].
    pose proof (ReapClients_timer
                  (expire (server (fold_left (fun w st => step st w) sts
                                     (new_World m))))) as R.
    destruct (ReapClients _) as [s e]. cbn [server fst] in *.
    intro E. destruct R as [[NE _] | [_ R]]; [contradiction | exact R].
Qed.

End Accounting.

(** A day in the life of a server with a ceiling of 1: three clients
    connect (the third is refused), the first hangs up and is reaped, a
    fourth connects. *)
Lemma descriptors_of_a_busy_server :
  let sts := [Loop.Accept 5; Loop.Accept 6; Loop.Accept 7;
              Loop.Deliver 0 (Ready 16 (Sample.took 0) []);
              Loop.Fire; Loop.Accept 8;
              Loop.Deliver 1 (Call CbClosed)] in
  let w := Loop.run (F := epoll) sts (Loop.new_World 1) in
  Permutation [5; 6; 7; 8]%Z
    (Loop.open_fds (Loop.server w) ++ Loop.released_fds (Loop.server w) ++
     Loop.closed_fds w).
Proof.
  exact (@every_descriptor_is_accounted_for epoll 1
           [Loop.Accept 5; Loop.Accept 6; Loop.Accept 7;
            Loop.Deliver 0 (Ready 16 (Sample.took 0) []);
            Loop.Fire; Loop.Accept 8;
            Loop.Deliver 1 (Call CbClosed)]
           ltac:(repeat constructor; discriminate)).
Defined.

Lemma shutdown_of_a_busy_server :
  let sts := [Loop.Accept 5; Loop.Accept 6; Loop.Accept 7;
              Loop.Deliver 0 (Ready 16 (Sample.took 0) []);
              Loop.Fire; Loop.Accept 8] in
  let w := Loop.run (F := epoll) sts (Loop.new_World 1) in
  Permutation [5; 6; 7; 8]%Z (Loop.shutdown w) /\
  Forall (fun c => IsClosed c = true /\ IsDefined c = false)
         (delete_VisualizationServer (Loop.server w)).
Proof.
  exact (@shutdown_closes_every_descriptor_once epoll 1
           [Loop.Accept 5; Loop.Accept 6; Loop.Accept 7;
            Loop.Deliver 0 (Ready 16 (Sample.took 0) []);
            Loop.Fire; Loop.Accept 8]
           ltac:(repeat constructor; discriminate)).
Defined.

Lemma busy_server_within_ceiling :
  let sts := [Loop.Accept 5; Loop.Accept 6; Loop.Accept 7;
              Loop.Deliver 0 (Ready 16 (Sample.took 0) []);
              Loop.Fire; Loop.Accept 8] in
  let s := Loop.server (Loop.run (F := epoll) sts (Loop.new_World 1)) in
  max_clients s = 1%N /\ (size (clients s) <= 2)%N.
Proof.
  exact (@list_stays_within_ceiling_plus_one epoll 1
           [Loop.Accept 5; Loop.Accept 6; Loop.Accept 7;
            Loop.Deliver 0 (Ready 16 (Sample.took 0) []);
            Loop.Fire; Loop.Accept 8]
           (fun E : 1%N = 0%N => N.neq_succ_0 0 E)).
Defined.

Lemma reaper_of_a_busy_server :
  (let s := Loop.server
              (Loop.run (F := epoll)
                 [Loop.Accept 5; Loop.Deliver 0 (Call CbClosed)]
                 (Loop.new_World 1)) in
   clients s <> [] -> reaper s = Some 3%N) /\
  (let s := Loop.server
              (Loop.run (F := epoll)
                 ([Loop.Accept 5; Loop.Deliver 0 (Call CbClosed)] ++ [Loop.Fire])
                 (Loop.new_World 1)) in
   clients s = [] -> reaper s = None).
Proof.
  exact (@reaper_is_scheduled_while_clients_remain epoll 1
           [Loop.Accept 5; Loop.Deliver 0 (Call CbClosed)]).
Defined.

(** ** Reading, and output that waits *)

Section Waiting.
Context {F : SocketEventFlags}.
Import Session.

(** X17.  Reading comes before writing.  As soon as an event carries
    [READ], whatever else it carries, the method only reads: nothing is
    sent, however much is waiting in the buffer and whatever the kernel
    would have answered, and the input is appended to the buffer. *)
Theorem read_comes_before_write (flags : N) (a : SendAnswer)
  (base : list Callback) (c : VisualizationClient) :
  N.land flags READ <> 0%N ->
  let c' := OnSocketReady flags a base c in
  wire c' = wire c /\
  buffer c' = buffer c ++ flat_map input_of_callback base /\
  (forall a' : SendAnswer, OnSocketReady flags a' base c = c').
Proof.
  intro R. cbv zeta. rewrite OnSocketReady_read by exact R.
  destruct (callbacks_stream base c) as (W & B).
  split; [exact W |]. split; [exact B |].
  intro a'. apply OnSocketReady_read, R.
Qed.

Lemma callback_awaited (cb : Callback) (c : VisualizationClient) :
  output_is_awaited c -> output_is_awaited (callback cb c).
Proof.
  unfold output_is_awaited. intro A.
  destruct cb; cbn [callback]; handlers; auto.
  destruct (0 <=? socket c)%Z; cbn; discriminate.
Qed.

Lemma deliver_awaited (ev : Event) (c : VisualizationClient) :
  output_is_awaited c -> output_is_awaited (deliver ev c).
Proof.
  intro A. destruct ev as [flags a base | cb]; cbn [deliver];
    [| apply callback_awaited, A].
  destruct (flags_cases flags) as [R | [(R & W) | [(R & W & H) | (R & W & H)]]].
  - rewrite OnSocketReady_read by assumption.
    unfold BufferedSocket_OnSocketReady. revert c A.
    induction base as [| cb cbs IH]; intros c A; cbn [fold_left]; [exact A |].
    apply IH, callback_awaited, A.
  - destruct (IsDefined c) eqn:D.
    + destruct (Z.ltb_spec (nbytes a) 0) as [Neg | Pos].
      * destruct (IsSocketErrorSendWouldBlock (GetSocketError a)) eqn:WB.
        -- rewrite OnSocketReady_would_block by assumption.
           unfold output_is_awaited. handlers. reflexivity.
        -- rewrite OnSocketReady_write_error by assumption.
           unfold output_is_awaited. handlers. rewrite D. cbn. discriminate.
      * destruct (OnSocketReady_wrote flags a base c R W D Pos) as (B & _).
        unfold output_is_awaited. rewrite B. congruence.
    + rewrite OnSocketReady_write_released by assumption.
      unfold output_is_awaited. handlers. discriminate.
  - rewrite OnSocketReady_hangup by assumption.
    unfold output_is_awaited. handlers.
    destruct (0 <=? socket c)%Z; cbn; discriminate.
  - rewrite OnSocketReady_other by assumption. exact A.
Qed.

(** X18.  Output is never left stranded.  After any events, a
    connection that is not closed and has bytes in its buffer has its
    interest in writing armed, so the event loop will call it to write
    them. *)
Theorem pending_output_is_awaited (fd : Z) (evs : list Event) :
  let c := run evs (new_VisualizationClient fd) in
  IsClosed c = false -> buffer c <> [] -> scheduled_write c = true.
Proof.
  cbv zeta.
  assert (G : forall c, output_is_awaited c -> output_is_awaited (run evs c)).
  { induction evs as [| ev evs IH]; intros c A; [exact A |].
    change (run (ev :: evs) c) with (run evs (deliver ev c)).
    apply IH, deliver_awaited, A. }
  apply G. intros _ B. exfalso. apply B. reflexivity.
Qed.

End Waiting.

(** Readable and writable at once, with "ping" waiting: only read. *)
Lemma readable_and_writable_only_reads :
  let c' := OnSocketReady (F := epoll) 5 (Sample.took 4) [CbInput Sample.ping]
              Sample.pinged in
  wire c' = [] /\
  buffer c' = Sample.ping ++ Sample.ping /\
  (forall a' : SendAnswer,
      OnSocketReady (F := epoll) 5 a' [CbInput Sample.ping] Sample.pinged = c').
Proof.
  exact (@read_comes_before_write epoll 5 (Sample.took 4) [CbInput Sample.ping]
           Sample.pinged (fun E : 1%N = 0%N => N.neq_succ_0 0 E)).
Defined.

(** "ping" received, the write blocks: the connection waits to write. *)
Lemma blocked_ping_is_awaited :
  scheduled_write
    (run (F := epoll)
       [Call (CbInput Sample.ping); Ready 4 (Sample.failed Sample.EAGAIN) []]
       (new_VisualizationClient 5)) = true.
Proof.
  exact (@pending_output_is_awaited epoll 5
           [Call (CbInput Sample.ping); Ready 4 (Sample.failed Sample.EAGAIN) []]
           eq_refl ltac:(discriminate)).
Defined.
